(** * Part 3 of the QnA-matching notebook: model training and evaluation

    A shallow embedding of the code cells of
    [notebooks/Part_3_Model_Training_and_Evaluation.ipynb]:
    the class ordering ([np.unique]), the Naive Bayes scorer, the
    one-vs-rest classifier with negative subsampling ([ovrClassifier]),
    the ensemble mean, the ranking evaluator ([rank]) and the two metrics.

    Numbers: answer ids and ranks are integers ([Z], [nat]); scores are
    exact rationals ([Q]), so float rounding is not part of the model.
    Python exceptions are values of [exn]; a computation that can raise
    returns a [result]. *)

From Stdlib Require Import List ZArith QArith Qround Lia Lqa Bool Arith.
From Stdlib Require Import Permutation Sorted.
Import ListNotations.

Local Open Scope nat_scope.

(** ** Python exceptions *)

Inductive exn : Type :=
| IndexError
| ValueError
| ZeroDivisionError.

Inductive result (A : Type) : Type :=
| Ok (a : A)
| Raise (e : exn).

Arguments Ok {A} a.
Arguments Raise {A} e.

Definition bind {A B : Type} (m : result A) (k : A -> result B) : result B :=
  match m with
  | Ok a => k a
  | Raise e => Raise e
  end.

Notation "x <- m ;; k" := (bind m (fun x => k))
  (at level 61, m at next level, right associativity).

Fixpoint mapM {A B : Type} (f : A -> result B) (l : list A) : result (list B) :=
  match l with
  | [] => Ok []
  | a :: t => b <- f a ;; bs <- mapM f t ;; Ok (b :: bs)
  end.

(** [a[i]] on a Python list or a NumPy vector, for a non-negative [i]. *)
Definition getitem {A : Type} (a : list A) (i : nat) : result A :=
  match nth_error a i with
  | Some x => Ok x
  | None => Raise IndexError
  end.

(** [a[idx]] with an integer index array [idx] (NumPy fancy indexing). *)
Definition take {A : Type} (a : list A) (idx : list nat) : result (list A) :=
  mapM (getitem a) idx.

(** ** Vectors and matrices *)

Definition vector := list Q.
(** A matrix is the list of its rows. *)
Definition matrix := list (list Q).

Definition has_shape (r c : nat) (M : matrix) : bool :=
  (length M =? r) && forallb (fun row => length row =? c) M.

Definition ncols (M : matrix) : nat :=
  match M with
  | [] => 0
  | row :: _ => length row
  end.

(** [M[q]] and [M[q, j]], for positions inside the array. *)
Definition row_of (M : matrix) (q : nat) : vector := nth q M [].

Definition entry (M : matrix) (q j : nat) : Q := nth j (row_of M q) 0%Q.

(** ** [np.unique]: the distinct values in ascending order *)

Fixpoint insert_unique (z : Z) (l : list Z) : list Z :=
  match l with
  | [] => [z]
  | y :: t =>
      if (z <? y)%Z then z :: l
      else if (z =? y)%Z then l
      else y :: insert_unique z t
  end.

Definition np_unique (l : list Z) : list Z := fold_right insert_unique [] l.

(** Cell 3: [uniqueAnswerId = list(np.unique(trainQ['AnswerId']))]. *)
Definition uniqueAnswerId (trainAnswerId : list Z) : list Z :=
  np_unique trainAnswerId.

(** [pd.get_dummies(labels)]: one indicator column per distinct label, the
    columns in ascending label order.  The frame is kept as the list of its
    columns, so [iloc[:, i]] is [getitem _ i]. *)
Definition get_dummies (labels : list Z) : list (list Z) :=
  map (fun c => map (fun l => if (l =? c)%Z then 1%Z else 0%Z) labels)
      (np_unique labels).

(** [np.where(v == x)[0]]: the positions of [x] in [v], ascending. *)
Fixpoint where_eq_from (x : Z) (v : list Z) (i : nat) : list nat :=
  match v with
  | [] => []
  | y :: t => if (y =? x)%Z then i :: where_eq_from x t (S i)
              else where_eq_from x t (S i)
  end.

Definition where_eq (x : Z) (v : list Z) : list nat := where_eq_from x v 0.

(** ** [np.argsort]

    NumPy's default sort kind is not stable, so the order among equal keys
    is not fixed by the library.  The evaluator is therefore verified
    against the contract of [argsort]: the result lists every position
    once, and the keys along it do not decrease. *)

Definition key_le (keys : list Q) (i j : nat) : Prop :=
  (nth i keys 0 <= nth j keys 0)%Q.

Class ArgSort : Type := {
  argsort : list Q -> list nat;
  argsort_perm : forall keys, Permutation (argsort keys) (seq 0 (length keys));
  argsort_sorted : forall keys, StronglySorted (key_le keys) (argsort keys)
}.

(** A stable insertion sort of the positions, as one implementation. *)
Fixpoint insert_by (keys : list Q) (i : nat) (l : list nat) : list nat :=
  match l with
  | [] => [i]
  | j :: t =>
      if Qle_bool (nth i keys 0%Q) (nth j keys 0%Q) then i :: l
      else j :: insert_by keys i t
  end.

Definition stable_argsort (keys : list Q) : list nat :=
  fold_right (insert_by keys) [] (seq 0 (length keys)).

(** ** The ranking evaluator (cell 10) *)

(** The columns of the test frame that [rank] reads and writes. *)
Record frame : Type := {
  AnswerId : list Z;
  SortedAnswers : option (list (list Z));
  Rank : option (list nat)
}.

Definition len (f : frame) : nat := length (AnswerId f).

Section Evaluator.
Context {sorter : ArgSort}.

(** [np.array(uniqueAnswerId)[np.argsort(-scores, axis=1)]], one row. *)
Definition sorted_answers_row (uniq : list Z) (row : list Q) : result (list Z) :=
  take uniq (argsort (map Qopp row)).

(** [np.where(sorted == a)[0][0] + 1]. *)
Definition rank_lookup (sorted : list Z) (a : Z) : result nat :=
  p <- getitem (where_eq a sorted) 0 ;; Ok (p + 1).

Definition rank (f : frame) (scores : matrix) (uniq : list Z) : result frame :=
  sorted <- mapM (sorted_answers_row uniq) scores ;;
  (* a frame with no row takes the rows of a non-empty new column; the
     answer ids of these rows are missing, so the first lookup has no match *)
  if (len f =? 0) && negb (length sorted =? 0) then Raise IndexError else
  (* otherwise a new column must be as long as the frame *)
  if negb (length sorted =? len f) then Raise ValueError else
  rankList <- mapM (fun sa => rank_lookup (fst sa) (snd sa))
                   (combine sorted (AnswerId f)) ;;
  Ok {| AnswerId := AnswerId f;
        SortedAnswers := Some sorted;
        Rank := Some rankList |}.

End Evaluator.

(** ** The metrics (cell 11) *)

Definition sum_ranks (ranks : list nat) : Z :=
  fold_right (fun r s => (Z.of_nat r + s)%Z) 0%Z ranks.

(** [testQ['Rank'].mean()]; [None] is NaN, the mean of an empty column. *)
Definition Series_mean (ranks : list nat) : option Q :=
  match ranks with
  | [] => None
  | _ => Some (inject_Z (sum_ranks ranks) / inject_Z (Z.of_nat (length ranks)))%Q
  end.

(** [np.floor] keeps NaN and returns a float with an integral value. *)
Definition np_floor (x : option Q) : option Q :=
  option_map (fun q => inject_Z (Qfloor q)) x.

Definition AR (ranks : list nat) : option Q := np_floor (Series_mean ranks).

(** Python 3 [round(x, ndigits)]: to the nearest multiple of [10^-ndigits],
    an exact tie going to the even one.  The model rounds the exact
    quotient; Python rounds the double nearest to it, so the two can differ
    by one unit of the last place when the exact quotient is a tie (1 of 80
    questions: 0.012 here, 0.013 in Python).  The properties of [top3]
    below hold of both values. *)
Definition round_half_even (x : Q) : Z :=
  let f := Qfloor x in
  match (x - inject_Z f ?= 1 # 2)%Q with
  | Lt => f
  | Gt => (f + 1)%Z
  | Eq => if Z.even f then f else (f + 1)%Z
  end.

Definition py_round (x : Q) (ndigits : nat) : Q :=
  (inject_Z (round_half_even (x * inject_Z (10 ^ Z.of_nat ndigits)))
   / inject_Z (10 ^ Z.of_nat ndigits))%Q.

(** [testQ.query('Rank <= k')], as the [Rank] values of the rows kept. *)
Definition query_rank_le (k : nat) (ranks : list nat) : list nat :=
  filter (fun r => r <=? k) ranks.

(** [round(len(testQ.query('Rank <= 3'))/len(testQ), 3)]. *)
Definition top3 (ranks : list nat) : result Q :=
  if length ranks =? 0 then Raise ZeroDivisionError
  else Ok (py_round (inject_Z (Z.of_nat (length (query_rank_le 3 ranks)))
                     / inject_Z (Z.of_nat (length ranks)))%Q 3).

(** ** Array operations *)

Definition map2 {A B C : Type} (f : A -> B -> C) (l1 : list A) (l2 : list B)
  : list C :=
  map (fun p => f (fst p) (snd p)) (combine l1 l2).

(** Column [j] of [M] as a vector, a missing entry read as 0. *)
Definition col_of (M : matrix) (j : nat) : vector :=
  map (fun row => nth j row 0%Q) M.

(** [M.T].  An array with no row is taken to have no column, so an array
    with rows but no column loses its row count when transposed: the
    properties below take arrays with at least one row and one column. *)
Definition transpose (M : matrix) : matrix :=
  map (col_of M) (seq 0 (ncols M)).

(** [M[:, i]]. *)
Definition column (M : matrix) (i : nat) : result vector :=
  mapM (fun row => getitem row i) M.

Definition Qsum (v : vector) : Q := fold_right Qplus 0%Q v.

Definition dot_vec (a b : vector) : Q := Qsum (map2 Qmult a b).

(** [np.dot(A, B)] of two 2-d arrays. *)
Definition np_dot (A B : matrix) : result matrix :=
  if forallb (fun a => length a =? length B) A
  then Ok (map (fun a => map (dot_vec a) (transpose B)) A)
  else Raise ValueError.

(** [row * w] for two 1-d arrays, with NumPy's broadcasting of length 1. *)
Definition broadcast_row (row w : vector) : result vector :=
  if length row =? length w then Ok (map2 Qmult row w)
  else match w, row with
       | [c], _ => Ok (map (fun v => v * c)%Q row)
       | _, [c] => Ok (map (fun v => c * v)%Q w)
       | _, _ => Raise ValueError
       end.

(** [X * w]: every row of [X] times the 1-d array [w], elementwise. *)
Definition broadcast_mul (X : matrix) (w : vector) : result matrix :=
  mapM (fun row => broadcast_row row w) X.

(** A 2-d array from its columns, each of [n] entries. *)
Definition of_columns (n : nat) (cols : list vector) : matrix :=
  map (fun q => map (fun col => nth q col 0%Q) cols) (seq 0 n).

(** ** TF-IDF (cell 3) *)

(** [(x_w.T * idf).T], where [idf] is the vector [getIDF(N_wQ)]: one
    weight per token. *)
Definition tfidf (x_w : matrix) (idf : vector) : result matrix :=
  M <- broadcast_mul (transpose x_w) idf ;; Ok (transpose M).

(** ** The ensemble (cell 9) *)

Definition mat_add (A B : matrix) : matrix := map2 (map2 Qplus) A B.

(** [np.mean([M, ...rest], axis=0)]: the arrays are stacked, so they must
    have one shape (NumPy 1.24 and later raise [ValueError] if not;
    earlier versions stack arrays of different shapes as objects), then
    summed along the new axis and divided by their number.  The mean is
    exact here; NumPy's is rounded to a double, which keeps it between 0
    and 1 for entries between 0 and 1 and keeps a weak order between two
    entries, but not a strict one. *)
Definition np_mean_axis0 (M : matrix) (rest : list matrix) : result matrix :=
  if forallb (has_shape (length M) (ncols M)) (M :: rest)
  then Ok (map (map (fun s => s / inject_Z (Z.of_nat (S (length rest))))%Q)
               (fold_left mat_add rest M))
  else Raise ValueError.

Definition Y_test_prob_aggr (Y_test_prob1 Y_test_prob2 Y_test_prob3 : matrix)
  : result matrix :=
  np_mean_axis0 Y_test_prob1 [Y_test_prob2; Y_test_prob3].

(** ** The class count matrix (cell 4) *)

(** Modelled from the spec: [countMatrix] of [modules.feature_extractor]
    is not among the sources.  With a group column it gives a
    tokens-by-groups matrix: the entry of token [w] and of the group at
    position [j] of [groupKeys] is the number of occurrences of [w] in the
    questions whose group value is [groupKeys[j]].  A question is the list
    of its token ids. *)
Definition group_count (tokenIds : list (list nat)) (groupColumn : list Z)
  (w : nat) (key : Z) : nat :=
  list_sum (map (fun qg => if (snd qg =? key)%Z
                           then count_occ Nat.eq_dec (fst qg) w else 0)
                (combine tokenIds groupColumn)).

Definition countMatrix_grouped (nTokens : nat) (tokenIds : list (list nat))
  (groupColumn groupKeys : list Z) : matrix :=
  map (fun w => map (fun key => inject_Z (Z.of_nat
                       (group_count tokenIds groupColumn w key)))
                    groupKeys)
      (seq 0 nTokens).

(** [N_wA = countMatrix(trainQ, token2IdHash, 'AnswerId', uniqueAnswerId)]. *)
Definition N_wA (nTokens : nat) (tokenIds : list (list nat))
  (trainAnswerId : list Z) : matrix :=
  countMatrix_grouped nTokens tokenIds trainAnswerId
                      (uniqueAnswerId trainAnswerId).

(** ** The global NumPy generator

    [np.random.choice] reads the module-level generator, which the
    notebook never seeds.  Its state is the stream of raw numbers it will
    produce; drawing advances the stream. *)

Definition RandomState := nat -> nat.

(** [randint(0, high, size)]. *)
Definition randint (high size : nat) (g : RandomState)
  : list nat * RandomState :=
  (map (fun k => g k mod high) (seq 0 size), fun k => g (size + k)).

(** [np.random.choice(a, size)]: [replace] is left at its default, [True],
    so every draw is an independent position of [a]. *)
Definition random_choice (a : list nat) (size : nat) (g : RandomState)
  : result (list nat * RandomState) :=
  match a with
  | [] => if size =? 0 then Ok ([], g) else Raise ValueError
  | d :: _ =>
      let (idx, g') := randint (length a) size g in
      Ok (map (fun j => nth j a d) idx, g')
  end.

(** ** Classifiers *)

(** A two-class scikit-learn estimator, with its [random_state] fixed when
    it was built.  [decision_function] is [None] when the estimator has no
    such attribute ([RandomForestClassifier] has none). *)
Record Classifier : Type := {
  fitted : Type;
  fit : matrix -> list Z -> fitted;
  decision_function : option (fitted -> matrix -> vector);
  predict_proba : fitted -> matrix -> matrix;
  (* one decision value per row scored *)
  decision_length : forall d X y Xt,
    decision_function = Some d -> length (d (fit X y) Xt) = length Xt;
  (* one probability per row scored and per class of [classes_], the
     sorted distinct labels the estimator was fitted on *)
  proba_shape : forall X y Xt,
    has_shape (length Xt) (length (np_unique y))
              (predict_proba (fit X y) Xt) = true
}.

(** A nearest-neighbour estimator ([KNeighborsClassifier(n_neighbors=1)]),
    as a small estimator that has [predict_proba] and no
    [decision_function]: the probability of a class is 1 when the closest
    training row (the first one among equally close rows) carries it. *)
Definition sqdist (a b : vector) : Q :=
  fold_right Qplus 0%Q (map (fun p => (fst p - snd p) * (fst p - snd p))%Q
                            (combine a b)).

Fixpoint nearest (train : list (vector * Z)) (t : vector) : option (Q * Z) :=
  match train with
  | [] => None
  | (x, y) :: rest =>
      match nearest rest t with
      | Some (d, y') =>
          if Qle_bool (sqdist x t) d then Some (sqdist x t, y) else Some (d, y')
      | None => Some (sqdist x t, y)
      end
  end.

Definition nn_predict (X : matrix) (y : list Z) (t : vector) : Z :=
  match nearest (combine X y) t with
  | Some (_, l) => l
  | None => 0%Z
  end.

Definition nn_predict_proba (m : matrix * list Z) (Xt : matrix) : matrix :=
  map (fun t => map (fun c => if (nn_predict (fst m) (snd m) t =? c)%Z
                              then 1%Q else 0%Q)
                    (np_unique (snd m))) Xt.

(** *** scikit-learn's [svm.LinearSVC(multi_class='ovr')]

    The solver of one two-class problem and the decision value [w.x + b]
    of a solved problem are left open; what the library does around them
    is written out: [fit] validates the data, takes [classes_] as the
    sorted distinct labels and solves one problem per class against the
    rest, in the order of [classes_] (a single problem, for [classes_[1]],
    when there are two classes); [decision_function] gives one value per
    row and problem, as a 1-d array when there is a single problem.

    [svc_solve k X y] is the solution of the [k]-th problem, for the rows
    [X] with the labels [y], 1 for the class and 0 for the rest: the
    generator seeded by [random_state] advances from one problem to the
    next, so the position is an argument. *)

Inductive ndarray : Type :=
| Array1 (v : vector)
| Array2 (M : matrix).

Record LinearSVC : Type := {
  svc_problem : Type;
  svc_solve : nat -> matrix -> list Z -> svc_problem;
  svc_value : svc_problem -> vector -> Q
}.

Record svc_fitted (svc : LinearSVC) : Type := {
  classes_ : list Z;
  n_features_in_ : nat;
  coef_ : list (svc_problem svc)
}.

Arguments classes_ {svc} _.
Arguments n_features_in_ {svc} _.
Arguments coef_ {svc} _.

(** [clf.fit(X, y)]. *)
Definition svc_fit (svc : LinearSVC) (X : matrix) (y : list Z)
  : result (svc_fitted svc) :=
  (* at least one sample and one feature, one label per sample *)
  if (length X =? 0) || (ncols X =? 0) || negb (length X =? length y)
  then Raise ValueError else
  let one_vs_rest k c :=
    svc_solve svc k X (map (fun l => if (l =? c)%Z then 1%Z else 0%Z) y) in
  match np_unique y with
  | [] | [_] => Raise ValueError
  | [c0; c1] =>
      Ok {| classes_ := [c0; c1]; n_features_in_ := ncols X;
            coef_ := [one_vs_rest 0 c1] |}
  | cs =>
      Ok {| classes_ := cs; n_features_in_ := ncols X;
            coef_ := map (fun k => one_vs_rest k (nth k cs 0%Z))
                         (seq 0 (length cs)) |}
  end.

(** [clf.decision_function(X)]. *)
Definition svc_decision_function (svc : LinearSVC) (m : svc_fitted svc)
  (X : matrix) : result ndarray :=
  if (length X =? 0)
     || negb (forallb (fun x => length x =? n_features_in_ m) X)
  then Raise ValueError else
  match coef_ m with
  | [p] => Ok (Array1 (map (svc_value svc p) X))
  | ps => Ok (Array2 (map (fun x => map (fun p => svc_value svc p x) ps) X))
  end.

(** A linear rule as one solver: the weights are the mean of the rows
    labelled 1 minus the mean of the rows labelled 0. *)
Definition rows_labelled (b : Z) (X : matrix) (y : list Z) : matrix :=
  map fst (filter (fun p => (snd p =? b)%Z) (combine X y)).

Definition mean_row (n : nat) (rows : matrix) : vector :=
  map (fun j => Qsum (col_of rows j) / inject_Z (Z.of_nat (length rows)))%Q
      (seq 0 n).

Definition centroid_solve (X : matrix) (y : list Z) : vector :=
  map2 Qminus (mean_row (ncols X) (rows_labelled 1 X y))
              (mean_row (ncols X) (rows_labelled 0 X y)).

Definition centroid_svc : LinearSVC := {|
  svc_problem := vector;
  svc_solve := fun _ => centroid_solve;
  svc_value := dot_vec
|}.

Section Classifiers.
(** [softmax] is imported from [modules.feature_extractor]. *)
Variable softmax : matrix -> matrix.

(** *** Naive Bayes (cell 5) *)

Definition beta_A : Q := 0.

(** [softmax(-beta_A + np.dot(x_wTest.T, NBWeights))], where [x_wTest] is
    [normalizeTF(testQ, token2IdHash)]. *)
Definition Y_test_prob1 (x_wTest NBWeights : matrix) : result matrix :=
  S <- np_dot (transpose x_wTest) NBWeights ;;
  Ok (softmax (map (map (fun v => - beta_A + v)%Q) S)).

(** *** Linear SVM (cell 6) *)

(** [clf.fit(tfidfTrain.T, np.array(trainQ['AnswerId']))], then
    [softmax(clf.decision_function(tfidfTest.T))].  [softmax] takes a 2-d
    array, one row per question.  The 1-d array of a two-class SVM is
    modelled from the spec: [softmax] normalises along axis 1, which a 1-d
    array has not, and NumPy's [AxisError] is a [ValueError]. *)
Definition Y_test_prob2 (svc : LinearSVC) (tfidfTrain tfidfTest : matrix)
  (trainAnswerId : list Z) : result matrix :=
  clf <- svc_fit svc (transpose tfidfTrain) trainAnswerId ;;
  d <- svc_decision_function svc clf (transpose tfidfTest) ;;
  match d with
  | Array2 M => Ok (softmax M)
  | Array1 _ => Raise ValueError
  end.

(** *** One-vs-rest classifier on NB scores (cell 7) *)

(** The positions kept for training when [ratio] is given. *)
Definition posIdx (Y_train_all : list Z) : list nat := where_eq 1 Y_train_all.

Definition negPool (Y_train_all : list Z) : list nat := where_eq 0 Y_train_all.

Definition negIdx (Y_train_all : list Z) (ratio : nat) (g : RandomState)
  : result (list nat * RandomState) :=
  random_choice (negPool Y_train_all) (ratio * length (posIdx Y_train_all)) g.

Definition select_training (X_train_all : matrix) (Y_train_all : list Z)
  (ratio : option nat) (g : RandomState)
  : result (matrix * list Z * RandomState) :=
  match ratio with
  | Some r =>
      ng <- negIdx Y_train_all r g ;;
      let allIdx := posIdx Y_train_all ++ fst ng in
      X_train <- take X_train_all allIdx ;;
      Y_train <- take Y_train_all allIdx ;;
      Ok (X_train, Y_train, snd ng)
  | None => Ok (X_train_all, Y_train_all, g)
  end.

(** The score of the test questions under a fitted estimator. *)
Definition test_scores (clf : Classifier) (m : fitted clf) (X_test : matrix)
  : result vector :=
  match decision_function clf with
  | Some d => Ok (d m X_test)
  | None => column (predict_proba clf m X_test) 1
  end.

(** [Y_test_prob[:, i] = col]: the column takes [col] when it has one
    entry per test question, and a single entry is broadcast. *)
Definition assign_column (numTest : nat) (col : vector) : result vector :=
  if length col =? numTest then Ok col
  else match col with
       | [c] => Ok (repeat c numTest)
       | _ => Raise ValueError
       end.

(** One turn of the loop: the body for class [i]. *)
Definition ovr_class (clf : Classifier) (dummyLabels : list (list Z))
  (x_wTrain x_wTest NBWeights : matrix) (ratio : option nat) (numTest i : nat)
  (g : RandomState) : result (vector * RandomState) :=
  w <- column NBWeights i ;;
  X_train_all <- broadcast_mul (transpose x_wTrain) w ;;
  Y_train_all <- getitem dummyLabels i ;;
  X_test <- broadcast_mul (transpose x_wTest) w ;;
  tr <- select_training X_train_all Y_train_all ratio g ;;
  let m := fit clf (fst (fst tr)) (snd (fst tr)) in
  scores <- test_scores clf m X_test ;;
  col <- assign_column numTest scores ;;
  Ok (col, snd tr).

Fixpoint ovr_loop (clf : Classifier) (dummyLabels : list (list Z))
  (x_wTrain x_wTest NBWeights : matrix) (ratio : option nat) (numTest : nat)
  (classes : list nat) (g : RandomState)
  : result (list vector * RandomState) :=
  match classes with
  | [] => Ok ([], g)
  | i :: rest =>
      c <- ovr_class clf dummyLabels x_wTrain x_wTest NBWeights ratio numTest i g ;;
      cs <- ovr_loop clf dummyLabels x_wTrain x_wTest NBWeights ratio numTest
                     rest (snd c) ;;
      Ok (fst c :: fst cs, snd cs)
  end.

(** [uniqueLabel = np.unique(trainLabels)]: the classes of the columns. *)
Definition uniqueLabel (trainLabels : list Z) : list Z := np_unique trainLabels.

(** The array handed to [softmax] at the end of [ovrClassifier]. *)
Definition ovr_scores (trainLabels : list Z) (x_wTrain x_wTest NBWeights : matrix)
  (clf : Classifier) (ratio : option nat) (g : RandomState)
  : result (matrix * RandomState) :=
  let dummyLabels := get_dummies trainLabels in
  let numTest := ncols x_wTest in
  cs <- ovr_loop clf dummyLabels x_wTrain x_wTest NBWeights ratio numTest
                 (seq 0 (length (uniqueLabel trainLabels))) g ;;
  Ok (of_columns numTest (fst cs), snd cs).

Definition ovrClassifier (trainLabels : list Z) (x_wTrain x_wTest NBWeights : matrix)
  (clf : Classifier) (ratio : option nat) (g : RandomState)
  : result (matrix * RandomState) :=
  Y <- ovr_scores trainLabels x_wTrain x_wTest NBWeights clf ratio g ;;
  Ok (softmax (fst Y), snd Y).

(** Cell 8: [ovrClassifier(trainQ["AnswerId"], ..., clf, ratio=3)]. *)
Definition Y_test_prob3 (trainAnswerId : list Z) (x_wTrain x_wTest NBWeights : matrix)
  (clf : Classifier) (g : RandomState) : result (matrix * RandomState) :=
  ovrClassifier trainAnswerId x_wTrain x_wTest NBWeights clf (Some 3) g.

End Classifiers.

(** ** The evaluation and the whole run (cells 5 to 11) *)

Section Notebook.
Context {sorter : ArgSort}.
Variable softmax : matrix -> matrix.

(** Cell 11: [testQ = rank(testQ, Y_test_prob_aggr, uniqueAnswerId)], then
    the two metrics of its [Rank] column, which [rank] has just set. *)
Definition evaluate (testQ : frame) (scores : matrix) (uniq : list Z)
  : result (frame * option Q * Q) :=
  ranked <- rank testQ scores uniq ;;
  let ranks := match Rank ranked with Some r => r | None => [] end in
  let average := AR ranks in
  t <- top3 ranks ;;
  Ok (ranked, average, t).

(** Cells 5, 6, 8, 9 and 11 in turn. *)
Definition notebook (svc : LinearSVC) (clf : Classifier)
  (trainAnswerId : list Z) (testQ : frame)
  (x_wTrain x_wTest tfidfTrain tfidfTest NBWeights : matrix)
  (g : RandomState) : result (frame * option Q * Q) :=
  Y1 <- Y_test_prob1 softmax x_wTest NBWeights ;;
  Y2 <- Y_test_prob2 softmax svc tfidfTrain tfidfTest trainAnswerId ;;
  Y3 <- Y_test_prob3 softmax trainAnswerId x_wTrain x_wTest NBWeights clf g ;;
  aggr <- Y_test_prob_aggr Y1 Y2 (fst Y3) ;;
  evaluate testQ aggr (uniqueAnswerId trainAnswerId).

End Notebook.

(** ** The rank in the words of the specification *)

(** The score of class [c] in a score row: the entry of the column where
    [c] stands in the class list. *)
Definition class_score (uniq : list Z) (row : list Q) (c : Z) : Q :=
  match where_eq c uniq with
  | j :: _ => nth j row 0%Q
  | [] => 0%Q
  end.

(** A list of classes whose scores do not increase. *)
Definition descending (uniq : list Z) (row : list Q) (l : list Z) : Prop :=
  StronglySorted
    (fun c d => (class_score uniq row d <= class_score uniq row c)%Q) l.

(** How many classes score strictly more than [a], and how many at least
    as much. *)
Definition count_above (uniq : list Z) (row : list Q) (a : Z) : nat :=
  length (filter (fun c => negb (Qle_bool (class_score uniq row c)
                                          (class_score uniq row a))) uniq).

Definition count_at_least (uniq : list Z) (row : list Q) (a : Z) : nat :=
  length (filter (fun c => Qle_bool (class_score uniq row a)
                                    (class_score uniq row c)) uniq).

(** [r] is the 1-based position of [a] in [srt], and [srt] lists all the
    classes by descending score. *)
Definition is_rank_of (uniq : list Z) (row : list Q) (a : Z)
  (srt : list Z) (r : nat) : Prop :=
  Permutation srt uniq /\ descending uniq row srt /\
  nth_error srt (r - 1) = Some a /\
  (forall q, q < r - 1 -> nth_error srt q <> Some a) /\
  1 <= r <= length uniq /\
  count_above uniq row a < r <= count_at_least uniq row a.

(** ** The metrics in the words of the specification *)

(** [k] is the floor of [x]. *)
Definition is_floor_of (k : Z) (x : Q) : Prop :=
  (inject_Z k <= x < inject_Z (k + 1))%Q.

(** The arithmetic mean of the ranks. *)
Definition mean_rank (ranks : list nat) : Q :=
  (inject_Z (sum_ranks ranks) / inject_Z (Z.of_nat (length ranks)))%Q.

(** The fraction of the questions whose rank is at most 3. *)
Definition top3_fraction (ranks : list nat) : Q :=
  (inject_Z (Z.of_nat (length (filter (fun r => r <=? 3) ranks)))
   / inject_Z (Z.of_nat (length ranks)))%Q.

(** [t] is [x] rounded to 3 decimal places: a multiple of 1/1000 at most
    half of 1/1000 away from [x]. *)
Definition rounded_3_places (t x : Q) : Prop :=
  exists k : Z, t = (inject_Z k / inject_Z 1000)%Q /\
                (- (1 # 2000) <= t - x <= 1 # 2000)%Q.

(** ** The one-vs-rest classifier in the words of the specification *)

(** The features of class [i]: every question's term-frequency vector
    (a column of [x_w]) times column [i] of the NB weights, elementwise. *)
Definition nb_features (x_w NBWeights : matrix) (i : nat) : matrix :=
  map (fun q => map2 Qmult (col_of x_w q) (col_of NBWeights i))
      (seq 0 (ncols x_w)).

(** The binary labels of class [c]: 1 for its questions, 0 for the rest. *)
Definition binary_labels (labels : list Z) (c : Z) : list Z :=
  map (fun l => if (l =? c)%Z then 1%Z else 0%Z) labels.

(** The score of the test rows: the decision value when the estimator has
    one, the probability in column 1 of [predict_proba] if not. *)
Definition class_scores (clf : Classifier) (m : fitted clf) (X_test : matrix)
  : vector :=
  match decision_function clf with
  | Some d => d m X_test
  | None => col_of (predict_proba clf m X_test) 1
  end.

Definition rows_at {A : Type} (d : A) (l : list A) (idx : list nat) : list A :=
  map (fun q => nth q l d) idx.

(** [col] is the score column of class [i]: the estimator is fitted on
    rows [idx] of the class's features and binary labels (all the rows when
    there is no subsampling), both labels occur among them, so that column
    1 of [predict_proba] is the positive class, and [col] scores the test
    features of the class. *)
Definition ovr_column_spec (clf : Classifier) (labels : list Z)
  (x_wTrain x_wTest NBWeights : matrix) (ratio : option nat) (i : nat)
  (col : vector) : Prop :=
  exists idx,
    Forall (fun q => q < length labels) idx /\
    (ratio = None -> idx = seq 0 (length labels)) /\
    np_unique (rows_at 0%Z (binary_labels labels (nth i (np_unique labels) 0%Z)) idx)
      = [0; 1]%Z /\
    col = class_scores clf
            (fit clf (rows_at [] (nb_features x_wTrain NBWeights i) idx)
                     (rows_at 0%Z (binary_labels labels
                                     (nth i (np_unique labels) 0%Z)) idx))
            (nb_features x_wTest NBWeights i).

(** The outcome of a computation with another final generator state. *)
Definition with_state {A : Type} (g : RandomState)
  (r : result (A * RandomState)) : result (A * RandomState) :=
  match r with
  | Ok (a, _) => Ok (a, g)
  | Raise e => Raise e
  end.

(** ** Small inputs for the worked examples

    Three training questions over two tokens, labelled 1, 2, 2; one test
    question; and a test frame of two questions with three classes. *)

Definition example_x_wTrain : matrix := [[1; 0; 1 # 2]; [0; 1; 1 # 2]]%Q.
Definition example_x_wTest : matrix := [[2 # 3]; [1 # 3]]%Q.
Definition example_NBWeights : matrix := [[1; -1]; [-1; 1]]%Q.
Definition example_testQ : frame :=
  {| AnswerId := [20; 10]%Z; SortedAnswers := None; Rank := None |}.
Definition example_scores : matrix :=
  [[1 # 10; 7 # 10; 2 # 10]; [5 # 10; 5 # 10; 2 # 10]]%Q.

(** Four training questions over two tokens, of the three classes 10, 20
    and 30, with their TF-IDF features for the weights 2 and 3, and one
    test question, whose answer is 20. *)
Definition example_trainAnswerId : list Z := [10; 20; 30; 20]%Z.
Definition example_x_wTrain3 : matrix :=
  [[1; 0; 1 # 2; 1 # 4]; [0; 1; 1 # 2; 3 # 4]]%Q.
Definition example_NBWeights3 : matrix := [[1; -1; 0]; [-1; 1; 0]]%Q.
Definition example_tfidfTrain : matrix :=
  [[2; 0; 1; 1 # 2]; [0; 3; 3 # 2; 9 # 4]]%Q.
Definition example_tfidfTest : matrix := [[4 # 3]; [1]]%Q.
Definition example_testQ1 : frame :=
  {| AnswerId := [20]%Z; SortedAnswers := None; Rank := None |}.

(** * Properties *)

(** ** The error monad and indexing *)

Lemma getitem_ok {A : Type} (a : list A) (i : nat) (d : A) :
  i < length a -> getitem a i = Ok (nth i a d).
Proof.
  intros Hi. unfold getitem.
  rewrite (nth_error_nth' a d Hi). reflexivity.
Qed.


Lemma getitem_inv {A : Type} (a : list A) (i : nat) (x : A) :
  getitem a i = Ok x -> nth_error a i = Some x.
Proof.
  unfold getitem. destruct (nth_error a i); congruence.
Qed.

Lemma getitem_exn {A : Type} (a : list A) (i : nat) (e : exn) :
  getitem a i = Raise e -> e = IndexError /\ length a <= i.
Proof.
  unfold getitem. destruct (nth_error a i) eqn:E; try discriminate.
  intros [= <-]. split; [reflexivity | now apply nth_error_None].
Qed.

Lemma mapM_ok {A B : Type} (f : A -> result B) (g : A -> B) (l : list A) :
  Forall (fun a => f a = Ok (g a)) l -> mapM f l = Ok (map g l).
Proof.
  induction 1 as [|a t Ha _ IH]; simpl; [reflexivity|].
  rewrite Ha. simpl. rewrite IH. reflexivity.
Qed.

Lemma mapM_inv {A B : Type} (f : A -> result B) (l : list A) (bs : list B) :
  mapM f l = Ok bs -> Forall2 (fun a b => f a = Ok b) l bs.
Proof.
  revert bs. induction l as [|a t IH]; simpl; intros bs H.
  - injection H as <-. constructor.
  - destruct (f a) as [b|e] eqn:Ea; simpl in H; try discriminate.
    destruct (mapM f t) as [bs'|e] eqn:Et; simpl in H; try discriminate.
    injection H as <-. constructor; auto.
Qed.

Lemma mapM_raise_inv {A B : Type} (f : A -> result B) (l : list A) (e : exn) :
  mapM f l = Raise e -> exists a, In a l /\ f a = Raise e.
Proof.
  induction l as [|a t IH]; simpl; intros H; try discriminate.
  destruct (f a) as [b|e'] eqn:Ea; simpl in H.
  - destruct (mapM f t) as [bs'|e''] eqn:Et; simpl in H; try discriminate.
    injection H as <-. destruct (IH eq_refl) as (x & Hx & Hfx). eauto.
  - injection H as <-. eauto.
Qed.

Lemma mapM_fails {A B : Type} (f : A -> result B) (l : list A) (a : A) :
  In a l -> (exists e, f a = Raise e) -> exists e, mapM f l = Raise e.
Proof.
  intros Hin [e He]. induction l as [|x t IH]; simpl; [contradiction|].
  destruct (f x) as [b|e'] eqn:Ex; simpl; [|eauto].
  destruct Hin as [->|Hin]; [congruence|].
  destruct (IH Hin) as [e'' ->]. simpl. eauto.
Qed.

Lemma take_ok {A : Type} (a : list A) (idx : list nat) (d : A) :
  Forall (fun j => j < length a) idx ->
  take a idx = Ok (map (fun j => nth j a d) idx).
Proof.
  intros H. apply mapM_ok. eapply Forall_impl; [|exact H].
  intros j Hj. now apply getitem_ok.
Qed.

Lemma take_inv {A : Type} (a : list A) (idx : list nat) (l : list A) :
  take a idx = Ok l -> length l = length idx /\ Forall (fun x => In x a) l.
Proof.
  intros H. apply mapM_inv in H. split.
  - symmetry. eapply Forall2_length; eauto.
  - induction H; constructor; auto.
    apply getitem_inv in H. eapply nth_error_In; eauto.
Qed.

Lemma take_exn {A : Type} (a : list A) (idx : list nat) (e : exn) :
  take a idx = Raise e -> e = IndexError.
Proof.
  intros H. apply mapM_raise_inv in H as (j & _ & Hj).
  now apply getitem_exn in Hj.
Qed.

(** ** [np.unique] *)

Lemma insert_unique_In (z x : Z) (l : list Z) :
  In x (insert_unique z l) <-> x = z \/ In x l.
Proof.
  induction l as [|y t IH]; simpl.
  - intuition.
  - destruct (Z.ltb_spec z y); [simpl; intuition|].
    destruct (Z.eqb_spec z y); simpl; [subst; intuition|].
    rewrite IH. intuition.
Qed.

Lemma insert_unique_sorted (z : Z) (l : list Z) :
  StronglySorted Z.lt l -> StronglySorted Z.lt (insert_unique z l).
Proof.
  induction 1 as [|y t Ht IH Hy]; simpl.
  - repeat constructor.
  - destruct (Z.ltb_spec z y).
    + constructor; [now constructor|]. constructor; [assumption|].
      eapply Forall_impl; [|exact Hy]. intros; lia.
    + destruct (Z.eqb_spec z y); [now constructor|].
      constructor; [assumption|].
      apply Forall_forall. intros x Hx.
      apply insert_unique_In in Hx as [->|Hx]; [lia|].
      rewrite Forall_forall in Hy. now apply Hy.
Qed.

Lemma np_unique_In (l : list Z) (x : Z) : In x (np_unique l) <-> In x l.
Proof.
  induction l as [|y t IH]; simpl; [tauto|].
  rewrite insert_unique_In, IH. intuition.
Qed.

Lemma np_unique_sorted (l : list Z) : StronglySorted Z.lt (np_unique l).
Proof.
  induction l; simpl; [constructor | now apply insert_unique_sorted].
Qed.

Lemma sorted_lt_NoDup (l : list Z) : StronglySorted Z.lt l -> NoDup l.
Proof.
  induction 1 as [|y t Ht IH Hy]; constructor; auto.
  intros Hin. rewrite Forall_forall in Hy. specialize (Hy _ Hin). lia.
Qed.

Lemma np_unique_NoDup (l : list Z) : NoDup (np_unique l).
Proof. apply sorted_lt_NoDup, np_unique_sorted. Qed.

(** Two strictly ascending lists with the same members are the same list. *)
Lemma sorted_lt_unique (l1 l2 : list Z) :
  StronglySorted Z.lt l1 -> StronglySorted Z.lt l2 ->
  (forall x, In x l1 <-> In x l2) -> l1 = l2.
Proof.
  intros H1. revert l2. induction H1 as [|a t Ht IH Ha]; intros l2 H2 Hm.
  - destruct l2 as [|b u]; [reflexivity|].
    exfalso. apply (proj2 (Hm b)). now left.
  - destruct H2 as [|b u Hu Hb].
    + exfalso. apply (proj1 (Hm a)). now left.
    + rewrite Forall_forall in Ha, Hb.
      assert (a = b) as ->.
      { destruct (proj1 (Hm a) (or_introl eq_refl)) as [E|Hin]; [auto|].
        destruct (proj2 (Hm b) (or_introl eq_refl)) as [E|Hin']; [auto|].
        specialize (Ha _ Hin'). specialize (Hb _ Hin). lia. }
      f_equal. apply IH; [assumption|].
      intros x. split; intros Hx.
      * destruct (proj1 (Hm x) (or_intror Hx)) as [E|]; [|assumption].
        specialize (Ha _ Hx). lia.
      * destruct (proj2 (Hm x) (or_intror Hx)) as [E|]; [|assumption].
        specialize (Hb _ Hx). lia.
Qed.

(** The class order depends on the set of labels only. *)
Lemma np_unique_members (l1 l2 : list Z) :
  (forall x, In x l1 <-> In x l2) -> np_unique l1 = np_unique l2.
Proof.
  intros H. apply sorted_lt_unique; try apply np_unique_sorted.
  intros x. rewrite !np_unique_In. apply H.
Qed.

(** ** [np.where] *)

Lemma where_eq_from_head (x : Z) (v : list Z) (i : nat) :
  match where_eq_from x v i with
  | [] => ~ In x v
  | p :: _ => exists k, p = i + k /\ nth_error v k = Some x /\
                        forall k', k' < k -> nth_error v k' <> Some x
  end.
Proof.
  revert i. induction v as [|y t IH]; intros i; simpl; [tauto|].
  destruct (Z.eqb_spec y x) as [->|Hne].
  - exists 0. repeat split; [lia | lia].
  - specialize (IH (S i)). destruct (where_eq_from x t (S i)) as [|p ps].
    + intros [E|Hin]; [congruence | tauto].
    + destruct IH as (k & -> & Hk & Hfirst). exists (S k).
      repeat split; [lia | assumption |].
      intros [|k'] Hlt; simpl; [congruence | apply Hfirst; lia].
Qed.

Lemma where_eq_from_In (x : Z) (v : list Z) (i p : nat) :
  In p (where_eq_from x v i) <->
  exists k, p = i + k /\ nth_error v k = Some x.
Proof.
  revert i. induction v as [|y t IH]; intros i; simpl.
  - split; [tauto | intros ([|k] & _ & Hk); discriminate].
  - destruct (Z.eqb_spec y x) as [->|Hne]; simpl; rewrite IH; split.
    + intros [<-|(k & -> & Hk)]; [exists 0 | exists (S k)]; split; auto; lia.
    + intros ([|k] & -> & Hk); [left; lia | right; exists k; split; auto; lia].
    + intros (k & -> & Hk). exists (S k). split; auto; lia.
    + intros ([|k] & -> & Hk); simpl in Hk; [congruence|].
      exists k. split; auto; lia.
Qed.



(** ** The insertion [argsort] meets the contract *)

Lemma insert_by_perm (keys : list Q) (i : nat) (l : list nat) :
  Permutation (insert_by keys i l) (i :: l).
Proof.
  induction l as [|j t IH]; simpl; [reflexivity|].
  destruct (Qle_bool _ _); [reflexivity|].
  rewrite IH. apply perm_swap.
Qed.

Lemma insert_by_sorted (keys : list Q) (i : nat) (l : list nat) :
  StronglySorted (key_le keys) l ->
  StronglySorted (key_le keys) (insert_by keys i l).
Proof.
  induction 1 as [|j t Ht IH Hj]; simpl.
  - repeat constructor.
  - destruct (Qle_bool (nth i keys 0%Q) (nth j keys 0%Q)) eqn:E.
    + apply Qle_bool_iff in E.
      constructor; [now constructor|]. constructor; [exact E|].
      eapply Forall_impl; [|exact Hj].
      intros k Hk. unfold key_le in *. eapply Qle_trans; eauto.
    + assert (key_le keys j i) as Hji.
      { unfold key_le. apply Qlt_le_weak, Qnot_le_lt.
        intros Hle. apply Qle_bool_iff in Hle. congruence. }
      constructor; [assumption|].
      eapply Permutation_Forall; [symmetry; apply insert_by_perm|].
      now constructor.
Qed.

Lemma stable_argsort_perm (keys : list Q) :
  Permutation (stable_argsort keys) (seq 0 (length keys)).
Proof.
  unfold stable_argsort. induction (seq 0 (length keys)) as [|i t IH]; simpl.
  - reflexivity.
  - rewrite insert_by_perm. now constructor.
Qed.

Lemma stable_argsort_sorted (keys : list Q) :
  StronglySorted (key_le keys) (stable_argsort keys).
Proof.
  unfold stable_argsort. induction (seq 0 (length keys)) as [|i t IH]; simpl.
  - constructor.
  - now apply insert_by_sorted.
Qed.

#[export] Instance insertion_sorter : ArgSort := {|
  argsort := stable_argsort;
  argsort_perm := stable_argsort_perm;
  argsort_sorted := stable_argsort_sorted
|}.

(** ** The evaluator *)

Section EvaluatorFacts.
Context {sorter : ArgSort}.

Lemma rank_lookup_ok (sorted : list Z) (a : Z) :
  In a sorted ->
  exists p, rank_lookup sorted a = Ok (p + 1) /\
            nth_error sorted p = Some a /\
            forall q, q < p -> nth_error sorted q <> Some a.
Proof.
  intros Hin. unfold rank_lookup, where_eq.
  pose proof (where_eq_from_head a sorted 0) as H.
  destruct (where_eq_from a sorted 0) as [|p ps]; [contradiction|].
  destruct H as (k & -> & Hk & Hfirst). exists k. simpl. auto.
Qed.

Lemma rank_lookup_raise (sorted : list Z) (a : Z) :
  ~ In a sorted ->
  where_eq a sorted = [] /\ rank_lookup sorted a = Raise IndexError.
Proof.
  intros Hin. unfold rank_lookup, where_eq.
  pose proof (where_eq_from_head a sorted 0) as H.
  destruct (where_eq_from a sorted 0) as [|p ps]; [split; reflexivity|].
  destruct H as (k & _ & Hk & _). apply nth_error_In in Hk. contradiction.
Qed.

Lemma rank_lookup_exn (sorted : list Z) (a : Z) (e : exn) :
  rank_lookup sorted a = Raise e -> e = IndexError.
Proof.
  unfold rank_lookup. destruct (getitem _ 0) eqn:E; simpl; try discriminate.
  intros [= <-]. now apply getitem_exn in E.
Qed.

Lemma sorted_answers_row_members (uniq : list Z) (row : list Q) (s : list Z) :
  sorted_answers_row uniq row = Ok s -> Forall (fun c => In c uniq) s.
Proof. intros H. now apply take_inv in H. Qed.

Lemma argsort_bound (keys : list Q) :
  Forall (fun j => j < length keys) (argsort keys).
Proof.
  apply Forall_forall. intros j Hj.
  eapply Permutation_in in Hj; [|apply argsort_perm].
  apply in_seq in Hj. lia.
Qed.

Lemma nth_seq_self {A : Type} (l : list A) (d : A) :
  map (fun j => nth j l d) (seq 0 (length l)) = l.
Proof.
  apply nth_ext with (d := d) (d' := d).
  - now rewrite length_map, length_seq.
  - intros n Hn. rewrite length_map, length_seq in Hn.
    rewrite (nth_indep _ d (nth 0 l d)) by now rewrite length_map, length_seq.
    rewrite (map_nth (fun j => nth j l d)). now rewrite seq_nth.
Qed.

Lemma sorted_answers_row_ok (uniq : list Z) (row : list Q) :
  length row = length uniq ->
  sorted_answers_row uniq row =
    Ok (map (fun j => nth j uniq 0%Z) (argsort (map Qopp row))) /\
  Permutation (map (fun j => nth j uniq 0%Z) (argsort (map Qopp row))) uniq.
Proof.
  intros Hlen. split.
  - apply take_ok. rewrite <- Hlen, <- (length_map Qopp). apply argsort_bound.
  - apply Permutation_trans
      with (map (fun j => nth j uniq 0%Z) (seq 0 (length uniq))).
    + apply Permutation_map. rewrite <- Hlen, <- (length_map Qopp row).
      apply argsort_perm.
    + now rewrite nth_seq_self.
Qed.

End EvaluatorFacts.

Lemma in_combine_snd {A B : Type} (l1 : list A) (l2 : list B) (b : B) :
  length l1 = length l2 -> In b l2 -> exists a, In (a, b) (combine l1 l2).
Proof.
  revert l2. induction l1 as [|x t IH]; intros [|y u] Hlen Hin;
    simpl in *; try contradiction; try discriminate.
  destruct Hin as [->|Hin]; [eauto|].
  destruct (IH u) as [a Ha]; auto. eauto.
Qed.

Lemma Forall2_In_r {A B : Type} (R : A -> B -> Prop) (l1 : list A)
  (l2 : list B) (b : B) :
  Forall2 R l1 l2 -> In b l2 -> exists a, In a l1 /\ R a b.
Proof.
  induction 1 as [|x y t u Hxy _ IH]; simpl; [contradiction|].
  intros [<-|Hin]; [eauto|]. destruct (IH Hin) as (a & Ha & HR). eauto.
Qed.

Section RankClaims.
Context {sorter : ArgSort}.

Lemma rank_agree (f : frame) (scores : matrix) (uniq : list Z)
  (sorted : list (list Z)) :
  mapM (sorted_answers_row uniq) scores = Ok sorted ->
  length sorted = len f ->
  rank f scores uniq =
    (rankList <- mapM (fun sa => rank_lookup (fst sa) (snd sa))
                      (combine sorted (AnswerId f)) ;;
     Ok {| AnswerId := AnswerId f;
           SortedAnswers := Some sorted;
           Rank := Some rankList |}).
Proof.
  intros Hs Hl. unfold rank. rewrite Hs. simpl. rewrite Hl, Nat.eqb_refl.
  destruct (len f =? 0); reflexivity.
Qed.

Lemma rank_exn (f : frame) (scores : matrix) (uniq : list Z) (e : exn) :
  rank f scores uniq = Raise e ->
  e = IndexError \/ (e = ValueError /\ length scores <> len f).
Proof.
  unfold rank. destruct (mapM (sorted_answers_row uniq) scores) as [sorted|e0] eqn:Es; simpl.
  - pose proof (Forall2_length (mapM_inv _ _ _ Es)) as Hlen.
    destruct ((len f =? 0) && negb (length sorted =? 0));
      [intros [= <-]; now left|].
    destruct (Nat.eqb_spec (length sorted) (len f)) as [Heq|Hne]; simpl.
    + destruct (mapM _ (combine sorted (AnswerId f))) as [rl|e1] eqn:Er; simpl;
        try discriminate.
      intros [= <-]. left.
      apply mapM_raise_inv in Er as (sa & _ & Hsa).
      now apply rank_lookup_exn in Hsa.
    + intros [= <-]. right. split; [reflexivity | congruence].
  - intros [= <-]. left.
    apply mapM_raise_inv in Es as (row & _ & Hrow). now apply take_exn in Hrow.
Qed.

(** C10. [rank] needs every test question's answer id to be one of
    [uniqueAnswerId].  When some question's [AnswerId] is not a training
    class, the call raises and returns no rank: the match of that answer in
    the sorted answers is empty, so taking its first element is an
    [IndexError]; with a score row per question this is the error of the
    whole call. *)
Theorem rank_unseen_answer_raises (f : frame) (scores : matrix) (uniq : list Z) :
  (exists a, In a (AnswerId f) /\ ~ In a uniq) ->
  (exists e, rank f scores uniq = Raise e) /\
  (length scores = len f -> rank f scores uniq = Raise IndexError) /\
  (forall a row sorted,
      In a (AnswerId f) -> ~ In a uniq ->
      sorted_answers_row uniq row = Ok sorted ->
      where_eq a sorted = [] /\ rank_lookup sorted a = Raise IndexError).
Proof.
  intros (a & Ha & Hnot).
  assert (Hrow : forall b row sorted,
             ~ In b uniq -> sorted_answers_row uniq row = Ok sorted ->
             where_eq b sorted = [] /\ rank_lookup sorted b = Raise IndexError).
  { intros b row sorted Hb Hs. apply rank_lookup_raise.
    intros Hin. apply sorted_answers_row_members in Hs.
    rewrite Forall_forall in Hs. auto. }
  assert (Hraise : exists e, rank f scores uniq = Raise e).
  { unfold rank.
    destruct (mapM (sorted_answers_row uniq) scores) as [sorted|e0] eqn:Es;
      simpl; [|eauto].
    destruct ((len f =? 0) && negb (length sorted =? 0)); [eauto|].
    destruct (Nat.eqb_spec (length sorted) (len f)) as [Heq|Hne]; simpl; [|eauto].
    destruct (in_combine_snd sorted (AnswerId f) a Heq Ha) as [s Hs].
    destruct (mapM_fails (fun sa => rank_lookup (fst sa) (snd sa))
                (combine sorted (AnswerId f)) (s, a) Hs) as [e He].
    - exists IndexError. simpl.
      apply mapM_inv in Es. apply in_combine_l in Hs.
      destruct (Forall2_In_r _ _ _ s Es Hs) as (row & _ & Hr).
      now apply (Hrow a row s).
    - rewrite He. simpl. eauto. }
  split; [exact Hraise|]. split.
  - intros Hlen. destruct Hraise as [e He]. rewrite He.
    destruct (rank_exn _ _ _ _ He) as [->|[_ Hne]]; [reflexivity | contradiction].
  - intros b row sorted _. apply Hrow.
Qed.

End RankClaims.

(** ** Counting along a sorted permutation *)

Lemma Permutation_filter_length {A : Type} (g : A -> bool) (l l' : list A) :
  Permutation l l' -> length (filter g l) = length (filter g l').
Proof.
  induction 1 as [|x l l' _ IH|x y l|l l' l'' _ IH1 _ IH2]; simpl.
  - reflexivity.
  - destruct (g x); simpl; now rewrite IH.
  - destruct (g x), (g y); reflexivity.
  - now rewrite IH1.
Qed.

Lemma StronglySorted_middle {A : Type} (R : A -> A -> Prop)
  (s1 s2 : list A) (a : A) :
  StronglySorted R (s1 ++ a :: s2) ->
  Forall (fun c => R c a) s1 /\ Forall (R a) s2.
Proof.
  induction s1 as [|x t IH]; simpl; intros H; inversion H as [|? ? Ht Hx]; subst.
  - split; [constructor | assumption].
  - destruct (IH Ht) as [H1 H2]. split; [|assumption].
    constructor; [|assumption].
    rewrite Forall_forall in Hx. apply Hx, in_elt.
Qed.

Lemma StronglySorted_map_on {A B : Type} (P : A -> A -> Prop)
  (R : B -> B -> Prop) (D : A -> Prop) (f : A -> B) (l : list A) :
  (forall i j, D i -> D j -> P i j -> R (f i) (f j)) ->
  Forall D l -> StronglySorted P l -> StronglySorted R (map f l).
Proof.
  intros HPR HD HS. induction HS as [|x t Ht IH Hx]; simpl; [constructor|].
  inversion HD as [|? ? Dx Dt]; subst.
  constructor; [now apply IH|].
  apply Forall_map. rewrite Forall_forall in *. intros y Hy.
  apply HPR; auto.
Qed.

Lemma filter_none {A : Type} (g : A -> bool) (l : list A) :
  Forall (fun x => g x = false) l -> filter g l = [].
Proof.
  induction 1 as [|x t Hx _ IH]; simpl; [reflexivity|]. now rewrite Hx.
Qed.

Lemma filter_all {A : Type} (g : A -> bool) (l : list A) :
  Forall (fun x => g x = true) l -> filter g l = l.
Proof.
  induction 1 as [|x t Hx _ IH]; simpl; [reflexivity|]. now rewrite Hx, IH.
Qed.

Lemma filter_length_le {A : Type} (g : A -> bool) (l : list A) :
  length (filter g l) <= length l.
Proof.
  induction l as [|x t IH]; simpl; [lia|]. destruct (g x); simpl; lia.
Qed.

Lemma nth_map_Qopp (row : list Q) (i : nat) :
  nth i (map Qopp row) 0%Q = Qopp (nth i row 0%Q).
Proof. change 0%Q with (Qopp 0%Q) at 1. apply map_nth. Qed.

Lemma class_score_nth (uniq : list Z) (row : list Q) (j : nat) :
  NoDup uniq -> j < length uniq ->
  class_score uniq row (nth j uniq 0%Z) = nth j row 0%Q.
Proof.
  intros Hnd Hj. unfold class_score, where_eq.
  pose proof (where_eq_from_head (nth j uniq 0%Z) uniq 0) as H.
  destruct (where_eq_from (nth j uniq 0%Z) uniq 0) as [|p ps].
  - exfalso. apply H. now apply nth_In.
  - destruct H as (k & -> & Hk & _). simpl.
    rewrite NoDup_nth_error in Hnd.
    rewrite (Hnd j k Hj); [reflexivity|].
    rewrite Hk. now apply nth_error_nth'.
Qed.

Section RankPosition.
Context {sorter : ArgSort}.

Lemma sorted_answers_descending (uniq : list Z) (row : list Q) :
  NoDup uniq -> length row = length uniq ->
  descending uniq row
    (map (fun j => nth j uniq 0%Z) (argsort (map Qopp row))).
Proof.
  intros Hnd Hlen. unfold descending.
  eapply StronglySorted_map_on
    with (P := key_le (map Qopp row)) (D := fun j => j < length uniq).
  - intros i j Hi Hj Hij. unfold key_le in Hij.
    rewrite !nth_map_Qopp in Hij.
    rewrite !class_score_nth by assumption. lra.
  - rewrite <- Hlen, <- (length_map Qopp). apply argsort_bound.
  - apply argsort_sorted.
Qed.

(** The rank of one question. *)
Lemma rank_row_position (uniq : list Z) (row : list Q) (a : Z) :
  NoDup uniq -> length row = length uniq -> In a uniq ->
  exists srt r,
    sorted_answers_row uniq row = Ok srt /\
    rank_lookup srt a = Ok r /\
    is_rank_of uniq row a srt r.
Proof.
  intros Hnd Hlen Hin.
  destruct (sorted_answers_row_ok uniq row Hlen) as [Hok Hperm].
  set (srt := map (fun j => nth j uniq 0%Z) (argsort (map Qopp row))) in *.
  assert (Hin' : In a srt) by (eapply Permutation_in; [symmetry|]; eauto).
  destruct (rank_lookup_ok srt a Hin') as (p & Hr & Hp & Hfirst).
  pose proof (sorted_answers_descending uniq row Hnd Hlen) as Hdesc.
  fold srt in Hdesc.
  exists srt, (p + 1). split; [exact Hok|]. split; [exact Hr|].
  assert (Hplt : p < length uniq).
  { rewrite <- (Permutation_length Hperm). apply nth_error_Some. congruence. }
  unfold is_rank_of. replace (p + 1 - 1) with p by lia.
  split; [exact Hperm|]. split; [exact Hdesc|]. split; [exact Hp|].
  split; [exact Hfirst|]. split; [lia|]. split.
  - (* strictly better classes all stand before [a] *)
    unfold count_above.
    rewrite <- (Permutation_filter_length _ _ _ Hperm).
    destruct (nth_error_split _ _ Hp) as (s1 & s2 & Es & Hl1).
    unfold descending in Hdesc. rewrite Es in Hdesc |- *.
    destruct (StronglySorted_middle _ _ _ _ Hdesc) as [_ H2].
    rewrite filter_app, length_app. simpl.
    replace (Qle_bool (class_score uniq row a) (class_score uniq row a))
      with true by (symmetry; apply Qle_bool_iff; apply Qle_refl).
    simpl. rewrite (filter_none _ s2).
    + pose proof (filter_length_le
        (fun c => negb (Qle_bool (class_score uniq row c)
                                 (class_score uniq row a))) s1).
      simpl. lia.
    + eapply Forall_impl; [|exact H2]. intros c Hc. simpl in Hc.
      apply negb_false_iff. now apply Qle_bool_iff.
  - (* the classes before [a] score at least as much *)
    unfold count_at_least.
    rewrite <- (Permutation_filter_length _ _ _ Hperm).
    destruct (nth_error_split _ _ Hp) as (s1 & s2 & Es & Hl1).
    unfold descending in Hdesc. rewrite Es in Hdesc |- *.
    destruct (StronglySorted_middle _ _ _ _ Hdesc) as [H1 _].
    rewrite filter_app, length_app. simpl.
    replace (Qle_bool (class_score uniq row a) (class_score uniq row a))
      with true by (symmetry; apply Qle_bool_iff; apply Qle_refl).
    rewrite (filter_all _ s1).
    + simpl. lia.
    + eapply Forall_impl; [|exact H1]. intros c Hc. simpl in Hc.
      now apply Qle_bool_iff.
Qed.

End RankPosition.

Section RankFrame.
Context {sorter : ArgSort}.

Lemma rank_rows (uniq : list Z) (scores : matrix) (answers : list Z) :
  NoDup uniq ->
  length scores = length answers ->
  Forall (fun row => length row = length uniq) scores ->
  Forall (fun a => In a uniq) answers ->
  exists sorted ranks,
    mapM (sorted_answers_row uniq) scores = Ok sorted /\
    mapM (fun sa => rank_lookup (fst sa) (snd sa)) (combine sorted answers)
      = Ok ranks /\
    length sorted = length answers /\ length ranks = length answers /\
    forall i row a srt r,
      nth_error scores i = Some row -> nth_error answers i = Some a ->
      nth_error sorted i = Some srt -> nth_error ranks i = Some r ->
      is_rank_of uniq row a srt r.
Proof.
  intros Hnd. revert answers.
  induction scores as [|row0 t IH]; intros [|a0 u] Hlen Hrows Hans;
    simpl in Hlen; try discriminate.
  - exists [], []. simpl. do 4 (split; [reflexivity|]).
    intros [|i] ? ? ? ? Hnone; discriminate.
  - inversion Hrows as [|? ? Hrow0 Ht]; subst.
    inversion Hans as [|? ? Ha0 Hu]; subst.
    destruct (IH u) as (sorted & ranks & Hs & Hr & Hls & Hlr & Hall);
      [lia | assumption | assumption |].
    destruct (rank_row_position uniq row0 a0 Hnd Hrow0 Ha0)
      as (srt0 & r0 & Hs0 & Hr0 & Hrank0).
    exists (srt0 :: sorted), (r0 :: ranks). simpl.
    rewrite Hs0, Hs. simpl. rewrite Hr0, Hr. simpl.
    split; [reflexivity|]. split; [reflexivity|].
    split; [lia|]. split; [lia|].
    intros [|i] row a srt r; simpl.
    + intros [= <-] [= <-] [= <-] [= <-]. exact Hrank0.
    + apply Hall.
Qed.

(** C4. When every test question's answer id is one of the classes (the
    case in which [rank] returns), [rank] stores for every question the
    1-based position of its true class in the list of all classes sorted
    by descending score; the rank is an integer between 1 and the number
    of classes, above the number of classes that score strictly more and
    at most the number of classes that score at least as much. *)
Theorem rank_is_position (f : frame) (scores : matrix) (uniq : list Z) :
  NoDup uniq ->
  length scores = len f ->
  Forall (fun row => length row = length uniq) scores ->
  Forall (fun a => In a uniq) (AnswerId f) ->
  exists sorted ranks,
    rank f scores uniq =
      Ok {| AnswerId := AnswerId f;
            SortedAnswers := Some sorted;
            Rank := Some ranks |} /\
    length sorted = len f /\ length ranks = len f /\
    Forall (fun r => 1 <= r <= length uniq) ranks /\
    forall i row a srt r,
      nth_error scores i = Some row -> nth_error (AnswerId f) i = Some a ->
      nth_error sorted i = Some srt -> nth_error ranks i = Some r ->
      is_rank_of uniq row a srt r.
Proof.
  intros Hnd Hlen Hrows Hans.
  destruct (rank_rows uniq scores (AnswerId f) Hnd Hlen Hrows Hans)
    as (sorted & ranks & Hs & Hr & Hls & Hlr & Hall).
  exists sorted, ranks. rewrite (rank_agree f scores uniq sorted Hs Hls).
  unfold len in *. rewrite Hr. simpl.
  split; [reflexivity|]. split; [assumption|]. split; [assumption|].
  split; [|exact Hall].
  apply Forall_forall. intros r Hin.
  apply In_nth_error in Hin as [i Hi].
  assert (Hi' : i < length ranks) by (apply nth_error_Some; congruence).
  destruct (nth_error scores i) as [row|] eqn:E1;
    [|apply nth_error_None in E1; lia].
  destruct (nth_error (AnswerId f) i) as [a|] eqn:E2;
    [|apply nth_error_None in E2; lia].
  destruct (nth_error sorted i) as [srt|] eqn:E3;
    [|apply nth_error_None in E3; lia].
  destruct (Hall i row a srt r E1 E2 E3 Hi) as (_ & _ & _ & _ & Hb & _).
  exact Hb.
Qed.

End RankFrame.

(** ** The metrics *)

Lemma round_half_even_near (x : Q) :
  (- (1 # 2) <= inject_Z (round_half_even x) - x <= 1 # 2)%Q.
Proof.
  unfold round_half_even.
  pose proof (Qfloor_le x) as Hlo. pose proof (Qlt_floor x) as Hhi.
  rewrite inject_Z_plus in Hhi. change (inject_Z 1) with 1%Q in Hhi.
  destruct (Qcompare_spec (x - inject_Z (Qfloor x)) (1 # 2)) as [E|E|E].
  - destruct (Z.even (Qfloor x)).
    + lra.
    + rewrite inject_Z_plus. change (inject_Z 1) with 1%Q. lra.
  - lra.
  - rewrite inject_Z_plus. change (inject_Z 1) with 1%Q. lra.
Qed.

Lemma py_round_3 (x : Q) : rounded_3_places (py_round x 3) x.
Proof.
  unfold rounded_3_places, py_round.
  change (10 ^ Z.of_nat 3)%Z with 1000%Z.
  exists (round_half_even (x * inject_Z 1000)). split; [reflexivity|].
  pose proof (round_half_even_near (x * inject_Z 1000)) as H.
  change (inject_Z 1000) with (1000 # 1)%Q in *.
  set (z := inject_Z (round_half_even (x * (1000 # 1)))) in *.
  unfold Qdiv. change (/ (1000 # 1))%Q with (1 # 1000)%Q. lra.
Qed.

(** C3. For a non-empty test set, Average Rank is the floor of the
    arithmetic mean of the ranks: the mean is taken first (sum of the ranks
    over their number) and floored once, which gives the integer quotient
    of the sum by the number of questions. *)
Theorem AR_floor_of_mean (ranks : list nat) :
  ranks <> [] ->
  exists k : Z,
    Series_mean ranks = Some (mean_rank ranks) /\
    AR ranks = Some (inject_Z k) /\
    is_floor_of k (mean_rank ranks) /\
    k = (sum_ranks ranks / Z.of_nat (length ranks))%Z.
Proof.
  intros Hne. exists (Qfloor (mean_rank ranks)).
  destruct ranks as [|r t]; [contradiction|].
  unfold AR, np_floor, Series_mean, mean_rank, is_floor_of.
  split; [reflexivity|]. split; [reflexivity|]. split.
  - split; [apply Qfloor_le | apply Qlt_floor].
  - symmetry. apply Zdiv_Qdiv.
Qed.

(** C9. For a non-empty test set, Top-3 Percentage is the number of
    questions of rank at most 3 divided by the number of questions, rounded
    to 3 decimal places. *)
Theorem top3_rounded_fraction (ranks : list nat) :
  ranks <> [] ->
  exists t : Q,
    top3 ranks = Ok t /\
    length (query_rank_le 3 ranks) = length (filter (fun r => r <=? 3) ranks) /\
    rounded_3_places t (top3_fraction ranks).
Proof.
  intros Hne. unfold top3.
  destruct ranks as [|r t]; [contradiction|].
  change (length (r :: t) =? 0) with false. cbv iota.
  eexists. split; [reflexivity|]. split; [reflexivity|].
  apply py_round_3.
Qed.

(** ** Arrays *)

Lemma has_shape_spec (r c : nat) (M : matrix) :
  has_shape r c M = true <->
  length M = r /\ Forall (fun row => length row = c) M.
Proof.
  unfold has_shape. rewrite andb_true_iff, Nat.eqb_eq, forallb_forall, Forall_forall.
  split; intros [H1 H2]; split; auto; intros x Hx.
  - now apply Nat.eqb_eq, H2.
  - now apply Nat.eqb_eq, H2.
Qed.


Lemma row_of_length (r c : nat) (M : matrix) (q : nat) :
  has_shape r c M = true -> q < r -> length (row_of M q) = c.
Proof.
  intros H Hq. apply has_shape_spec in H as [Hl Hr].
  rewrite Forall_forall in Hr. apply Hr. apply nth_In. lia.
Qed.

Lemma length_map2 {A B C : Type} (f : A -> B -> C) (l1 : list A) (l2 : list B) :
  length (map2 f l1 l2) = Nat.min (length l1) (length l2).
Proof. unfold map2. now rewrite length_map, length_combine. Qed.

Lemma nth_map2 {A B C : Type} (f : A -> B -> C) (l1 : list A) (l2 : list B)
  (j : nat) (d1 : A) (d2 : B) (d : C) :
  j < length l1 -> j < length l2 ->
  nth j (map2 f l1 l2) d = f (nth j l1 d1) (nth j l2 d2).
Proof.
  revert l2 j. induction l1 as [|x t IH]; intros [|y u] [|j] H1 H2;
    simpl in *; try lia; [reflexivity|].
  apply IH; lia.
Qed.

Lemma Qsum_map2_plus (a b : vector) :
  length a = length b ->
  (Qsum (map2 Qplus a b) == Qsum a + Qsum b)%Q.
Proof.
  revert b. induction a as [|x t IH]; intros [|y u] Hlen;
    simpl in *; try discriminate.
  - lra.
  - unfold map2 in IH. rewrite IH by lia. lra.
Qed.

Lemma Qsum_map_div (l : vector) (k : Q) :
  (Qsum (map (fun s => s / k) l) == Qsum l / k)%Q.
Proof.
  induction l as [|x t IH]; simpl.
  - unfold Qdiv. lra.
  - rewrite IH. unfold Qdiv. ring.
Qed.

(** ** The ensemble *)

Lemma mat_add_shape (r c : nat) (A B : matrix) :
  has_shape r c A = true -> has_shape r c B = true ->
  has_shape r c (mat_add A B) = true.
Proof.
  intros HA HB. apply has_shape_spec in HA as [HA1 HA2].
  apply has_shape_spec in HB as [HB1 HB2]. apply has_shape_spec.
  unfold mat_add. split.
  - rewrite length_map2. lia.
  - unfold map2 at 1. apply Forall_map. apply Forall_forall.
    intros [x y] Hin. simpl. rewrite length_map2.
    rewrite Forall_forall in HA2, HB2.
    rewrite (HA2 x), (HB2 y); [lia | |].
    + eapply in_combine_r; eauto.
    + eapply in_combine_l; eauto.
Qed.

Lemma mat_add_row (r c : nat) (A B : matrix) (q : nat) :
  has_shape r c A = true -> has_shape r c B = true -> q < r ->
  row_of (mat_add A B) q = map2 Qplus (row_of A q) (row_of B q).
Proof.
  intros HA HB Hq. apply has_shape_spec in HA as [HA1 _].
  apply has_shape_spec in HB as [HB1 _].
  unfold row_of, mat_add. apply nth_map2; lia.
Qed.

(** C5. The ensemble is the elementwise mean of the three score matrices
    with equal weights: every entry is the sum of the three entries over 3.
    Where the three rows of a question each sum to 1, the ensemble row sums
    to 1 as it is, with no renormalisation. *)
Theorem ensemble_mean_preserves_rows (P1 P2 P3 : matrix) (n c : nat) :
  has_shape n c P1 = true ->
  has_shape n c P2 = true ->
  has_shape n c P3 = true ->
  exists E,
    Y_test_prob_aggr P1 P2 P3 = Ok E /\
    has_shape n c E = true /\
    (forall q j, q < n -> j < c ->
       entry E q j = ((entry P1 q j + entry P2 q j + entry P3 q j) / 3)%Q) /\
    (forall q, q < n ->
       (Qsum (row_of P1 q) == 1)%Q -> (Qsum (row_of P2 q) == 1)%Q ->
       (Qsum (row_of P3 q) == 1)%Q ->
       (Qsum (row_of E q) == 1)%Q).
Proof.
  intros H1 H2 H3.
  pose proof (mat_add_shape n c _ _ H1 H2) as H12.
  pose proof (mat_add_shape n c _ _ H12 H3) as H123.
  set (S := mat_add (mat_add P1 P2) P3) in *.
  exists (map (map (fun s => s / 3)%Q) S).
  assert (Hrow : forall q, q < n ->
            row_of (map (map (fun s => s / 3)%Q) S) q
            = map (fun s => s / 3)%Q
                  (map2 Qplus (map2 Qplus (row_of P1 q) (row_of P2 q))
                              (row_of P3 q))).
  { intros q Hq. unfold row_of at 1.
    change (@nil Q) with (map (fun s => (s / 3)%Q) (@nil Q)).
    rewrite map_nth. fold (row_of S q). unfold S.
    rewrite (mat_add_row n c), (mat_add_row n c); auto. }
  split; [|split; [|split]].
  - unfold Y_test_prob_aggr, np_mean_axis0.
    assert (Hn : length P1 = n) by (now apply has_shape_spec in H1).
    assert (HP2 : length P2 = n) by (now apply has_shape_spec in H2).
    assert (HP3 : length P3 = n) by (now apply has_shape_spec in H3).
    assert (Hall : forallb (has_shape (length P1) (ncols P1)) [P1; P2; P3] = true).
    { destruct P1 as [|r1 t1].
      - simpl in Hn. subst n.
        destruct P2; [|discriminate]. destruct P3; [|discriminate]. reflexivity.
      - assert (ncols (r1 :: t1) = c) as ->.
        { apply has_shape_spec in H1 as [_ Hr]. now inversion Hr. }
        rewrite Hn. simpl. now rewrite H1, H2, H3. }
    rewrite Hall. reflexivity.
  - apply has_shape_spec in H123 as [Hl Hr]. apply has_shape_spec.
    split; [now rewrite length_map|].
    apply Forall_map. eapply Forall_impl; [|exact Hr].
    intros row Hrw. now rewrite length_map.
  - intros q j Hq Hj. unfold entry. rewrite Hrow by assumption.
    pose proof (row_of_length n c P1 q H1 Hq) as L1.
    pose proof (row_of_length n c P2 q H2 Hq) as L2.
    pose proof (row_of_length n c P3 q H3 Hq) as L3.
    rewrite (nth_indep _ 0%Q ((0 + 0 + 0) / 3)%Q)
      by (rewrite length_map, !length_map2; lia).
    rewrite (map_nth (fun s => (s / 3)%Q)).
    rewrite (nth_map2 _ _ _ _ (0 + 0)%Q 0%Q) by (rewrite ?length_map2; lia).
    rewrite (nth_map2 _ _ _ _ 0%Q 0%Q) by lia.
    reflexivity.
  - intros q Hq S1 S2 S3. rewrite Hrow by assumption.
    pose proof (row_of_length n c P1 q H1 Hq) as L1.
    pose proof (row_of_length n c P2 q H2 Hq) as L2.
    pose proof (row_of_length n c P3 q H3 Hq) as L3.
    rewrite Qsum_map_div, Qsum_map2_plus by (rewrite length_map2; lia).
    rewrite Qsum_map2_plus by lia.
    rewrite S1, S2, S3. reflexivity.
Qed.

(** ** Transposition and products *)

Lemma nth_map_seq {A : Type} (f : nat -> A) (n q : nat) (d : A) :
  q < n -> nth q (map f (seq 0 n)) d = f q.
Proof.
  intros Hq. rewrite (nth_indep _ d (f 0)) by now rewrite length_map, length_seq.
  rewrite map_nth, seq_nth; auto.
Qed.

Lemma nth_map_in {A B : Type} (f : A -> B) (l : list A) (j : nat)
  (d : B) (d' : A) :
  j < length l -> nth j (map f l) d = f (nth j l d').
Proof.
  intros Hj. rewrite (nth_indep _ d (f d')) by now rewrite length_map.
  apply map_nth.
Qed.

Lemma ncols_shape (r c : nat) (M : matrix) :
  0 < r -> has_shape r c M = true -> ncols M = c.
Proof.
  intros Hr H. apply has_shape_spec in H as [Hl HF].
  destruct M as [|row t]; simpl in *; [lia|]. now inversion HF.
Qed.

Lemma transpose_shape (r c : nat) (M : matrix) :
  0 < r -> has_shape r c M = true -> has_shape c r (transpose M) = true.
Proof.
  intros Hr H. pose proof (ncols_shape r c M Hr H) as Hc.
  apply has_shape_spec in H as [Hl _]. apply has_shape_spec.
  unfold transpose. rewrite Hc. split.
  - now rewrite length_map, length_seq.
  - apply Forall_map, Forall_forall. intros j _. unfold col_of.
    now rewrite length_map.
Qed.

Lemma transpose_row (r c : nat) (M : matrix) (q : nat) :
  0 < r -> has_shape r c M = true -> q < c ->
  row_of (transpose M) q = col_of M q.
Proof.
  intros Hr H Hq. unfold row_of, transpose.
  rewrite (ncols_shape r c M Hr H). now apply nth_map_seq.
Qed.

Lemma Qplus_opp0_l (v : Q) : (- beta_A + v)%Q = v.
Proof.
  destruct v as [n d]. unfold beta_A, Qplus, Qopp. simpl.
  now rewrite Z.mul_1_r.
Qed.

(** C7. The Naive Bayes scores are [softmax] of the matrix whose entry for
    test question [q] and class [j] is the dot product of the question's
    term-frequency vector (column [q] of [x_wTest]) with column [j] of the
    NB weights; the bias [beta_A] is 0 and leaves the products unchanged.
    The scorer takes the weights as they are: no estimator is fitted. *)
Theorem Y_test_prob1_softmax_dot (softmax : matrix -> matrix)
  (x_wTest NBWeights : matrix) (nTokens nTest nClasses : nat) :
  0 < nTokens ->
  has_shape nTokens nTest x_wTest = true ->
  has_shape nTokens nClasses NBWeights = true ->
  exists S,
    Y_test_prob1 softmax x_wTest NBWeights = Ok (softmax S) /\
    has_shape nTest nClasses S = true /\
    beta_A = 0%Q /\
    forall q j, q < nTest -> j < nClasses ->
      entry S q j = dot_vec (col_of x_wTest q) (col_of NBWeights j).
Proof.
  intros HT Hx HW.
  pose proof (transpose_shape _ _ _ HT Hx) as HxT.
  pose proof (transpose_shape _ _ _ HT HW) as HWT.
  set (S := map (fun a => map (dot_vec a) (transpose NBWeights))
                (transpose x_wTest)).
  exists S.
  assert (HS : has_shape nTest nClasses S = true).
  { apply has_shape_spec in HxT as [Hl _]. apply has_shape_spec in HWT as [Hl' _].
    apply has_shape_spec. unfold S. split; [now rewrite length_map|].
    apply Forall_map, Forall_forall. intros a _. now rewrite length_map. }
  split; [|split; [exact HS|split; [reflexivity|]]].
  - unfold Y_test_prob1, np_dot.
    assert (Hchk : forallb (fun a => length a =? length NBWeights)
                     (transpose x_wTest) = true).
    { apply forallb_forall. intros a Ha. apply Nat.eqb_eq.
      apply has_shape_spec in HxT as [_ HF]. rewrite Forall_forall in HF.
      rewrite (HF a Ha). apply has_shape_spec in HW as [HlW _]. lia. }
    rewrite Hchk. simpl. fold S. do 2 f_equal.
    rewrite <- (map_id S) at 2. apply map_ext. intros row.
    rewrite <- (map_id row) at 2. apply map_ext. apply Qplus_opp0_l.
  - intros q j Hq Hj. unfold entry.
    assert (Hrow : row_of S q
                   = map (dot_vec (col_of x_wTest q)) (transpose NBWeights)).
    { unfold row_of, S. apply has_shape_spec in HxT as [Hl _].
      rewrite nth_map_in with (d' := @nil Q) by lia.
      fold (row_of (transpose x_wTest) q).
      now rewrite (transpose_row _ _ _ q HT Hx Hq). }
    rewrite Hrow.
    apply has_shape_spec in HWT as [Hl' _].
    rewrite nth_map_in with (d' := @nil Q) by lia.
    fold (row_of (transpose NBWeights) j).
    now rewrite (transpose_row _ _ _ j HT HW Hj).
Qed.

(** ** Negative subsampling *)

Lemma where_eq_In (x : Z) (v : list Z) (p : nat) :
  In p (where_eq x v) <-> nth_error v p = Some x.
Proof.
  unfold where_eq. rewrite where_eq_from_In. split.
  - intros (k & -> & Hk). exact Hk.
  - intros H. exists p. auto.
Qed.

Lemma where_eq_bound (x : Z) (v : list Z) :
  Forall (fun p => p < length v) (where_eq x v).
Proof.
  apply Forall_forall. intros p Hp. apply where_eq_In in Hp.
  apply nth_error_Some. congruence.
Qed.

Lemma random_choice_ok (a : list nat) (size : nat) (g : RandomState) :
  a <> [] ->
  exists draws g',
    random_choice a size g = Ok (draws, g') /\
    length draws = size /\ Forall (fun j => In j a) draws.
Proof.
  intros Ha. destruct a as [|d t]; [contradiction|].
  unfold random_choice, randint.
  eexists _, _. split; [reflexivity|]. split.
  - now rewrite !length_map, length_seq.
  - apply Forall_map, Forall_map, Forall_forall. intros k _.
    apply nth_In. apply Nat.mod_upper_bound. simpl. lia.
Qed.

Lemma random_choice_empty (size : nat) (g : RandomState) :
  size <> 0 -> random_choice [] size g = Raise ValueError.
Proof.
  intros Hs. unfold random_choice.
  destruct (Nat.eqb_spec size 0); [contradiction | reflexivity].
Qed.

(** C1, as the code has it.  With subsampling on, the negative examples of
    a class are drawn with replacement: the draw has exactly
    [ratio * len(posIdx)] entries, whatever the number of negative
    examples, and each entry is one of them; the count is not capped.  With
    no negative example and a positive draw count the draw raises
    [ValueError]. *)
Theorem negIdx_draw_count (Y_train_all : list Z) (ratio : nat) (g : RandomState) :
  match negIdx Y_train_all ratio g with
  | Ok (neg, _) =>
      length neg = ratio * length (posIdx Y_train_all) /\
      Forall (fun j => In j (negPool Y_train_all)) neg /\
      Forall (fun j => nth_error Y_train_all j = Some 0%Z) neg
  | Raise e =>
      e = ValueError /\ negPool Y_train_all = [] /\
      ratio * length (posIdx Y_train_all) <> 0
  end.
Proof.
  unfold negIdx. destruct (negPool Y_train_all) as [|d t] eqn:Ep.
  - unfold random_choice.
    destruct (Nat.eqb_spec (ratio * length (posIdx Y_train_all)) 0) as [E|E].
    + rewrite E. repeat split; constructor.
    + repeat split; assumption.
  - destruct (random_choice_ok (d :: t) (ratio * length (posIdx Y_train_all)) g)
      as (draws & g' & -> & Hlen & Hin); [discriminate|].
    split; [exact Hlen|]. split; [exact Hin|].
    eapply Forall_impl; [|exact Hin]. intros j Hj.
    rewrite <- Ep in Hj. now apply where_eq_In in Hj.
Qed.

(** C1 as stated fails: for the labels [5, 5, 9] and [ratio = 3], class 5
    has one negative example and six are drawn, the same one six times. *)
Lemma negIdx_exceeds_available :
  getitem (get_dummies [5; 5; 9]%Z) 0 = Ok [1; 1; 0]%Z /\
  negPool [1; 1; 0]%Z = [2] /\
  exists g',
    negIdx [1; 1; 0]%Z 3 (fun k => k) = Ok ([2; 2; 2; 2; 2; 2], g') /\
    ~ (length [2; 2; 2; 2; 2; 2] <= length (negPool [1; 1; 0]%Z)) /\
    ~ NoDup [2; 2; 2; 2; 2; 2].
Proof.
  split; [reflexivity|]. split; [reflexivity|].
  eexists. split; [reflexivity|]. split.
  - simpl. lia.
  - intros H. inversion H as [|? ? Hnin _]. apply Hnin. now left.
Qed.

(** ** The one-vs-rest loop *)

Lemma column_ok (M : matrix) (i : nat) :
  Forall (fun row => i < length row) M -> column M i = Ok (col_of M i).
Proof.
  intros H. unfold column, col_of. apply mapM_ok.
  eapply Forall_impl; [|exact H]. intros row Hi. now apply getitem_ok.
Qed.

Lemma broadcast_mul_ok (X : matrix) (w : vector) :
  Forall (fun row => length row = length w) X ->
  broadcast_mul X w = Ok (map (fun row => map2 Qmult row w) X).
Proof.
  intros H. unfold broadcast_mul. apply mapM_ok.
  eapply Forall_impl; [|exact H]. intros row Hl. unfold broadcast_row.
  now rewrite Hl, Nat.eqb_refl.
Qed.

Lemma features_ok (x_w NBWeights : matrix) (T n c i : nat) :
  0 < T -> has_shape T n x_w = true -> has_shape T c NBWeights = true ->
  broadcast_mul (transpose x_w) (col_of NBWeights i)
    = Ok (nb_features x_w NBWeights i) /\
  length (nb_features x_w NBWeights i) = n.
Proof.
  intros HT Hx HW. unfold nb_features, transpose.
  rewrite (ncols_shape _ _ _ HT Hx). split.
  - rewrite broadcast_mul_ok; [now rewrite map_map|].
    apply Forall_map, Forall_forall. intros q _. unfold col_of.
    rewrite !length_map. apply has_shape_spec in Hx as [-> _].
    now apply has_shape_spec in HW as [-> _].
  - now rewrite length_map, length_seq.
Qed.

Lemma get_dummies_column (labels : list Z) (i : nat) :
  i < length (np_unique labels) ->
  getitem (get_dummies labels) i
    = Ok (binary_labels labels (nth i (np_unique labels) 0%Z)).
Proof.
  intros Hi. unfold get_dummies.
  rewrite (getitem_ok _ _ []) by now rewrite length_map.
  f_equal. rewrite nth_map_in with (d' := 0%Z) by assumption. reflexivity.
Qed.

Lemma binary_labels_nth (labels : list Z) (c : Z) (q : nat) (b : Z) :
  nth_error (binary_labels labels c) q = Some b <->
  exists l, nth_error labels q = Some l /\ b = (if (l =? c)%Z then 1 else 0)%Z.
Proof.
  unfold binary_labels. rewrite nth_error_map.
  destruct (nth_error labels q) as [l|]; simpl; split.
  - intros [= <-]. eauto.
  - intros (l' & [= <-] & ->). reflexivity.
  - discriminate.
  - intros (l' & H & _). discriminate.
Qed.

Lemma posIdx_nonempty (labels : list Z) (c : Z) :
  In c labels -> posIdx (binary_labels labels c) <> [].
Proof.
  intros Hin Hnil. apply In_nth_error in Hin as [q Hq].
  assert (H : In q (posIdx (binary_labels labels c))).
  { apply where_eq_In, binary_labels_nth. exists c. now rewrite Z.eqb_refl. }
  rewrite Hnil in H. contradiction.
Qed.

Lemma negPool_nonempty (labels : list Z) (c l : Z) :
  In l labels -> l <> c -> negPool (binary_labels labels c) <> [].
Proof.
  intros Hin Hne Hnil. apply In_nth_error in Hin as [q Hq].
  assert (H : In q (negPool (binary_labels labels c))).
  { apply where_eq_In, binary_labels_nth. exists l. split; [assumption|].
    destruct (Z.eqb_spec l c); [contradiction | reflexivity]. }
  rewrite Hnil in H. contradiction.
Qed.

Lemma other_class (labels : list Z) (c : Z) :
  2 <= length (np_unique labels) -> exists l, In l labels /\ l <> c.
Proof.
  intros H. pose proof (np_unique_NoDup labels) as Hnd.
  destruct (np_unique labels) as [|a [|b t]] eqn:E; simpl in H; try lia.
  destruct (Z.eq_dec a c) as [->|Hac].
  - exists b. split.
    + apply np_unique_In. rewrite E. simpl. auto.
    + intros ->. inversion Hnd as [|? ? Hnin _]. apply Hnin. now left.
  - exists a. split; [|assumption].
    apply np_unique_In. rewrite E. now left.
Qed.

Lemma np_unique_binary (l : list Z) :
  In 0%Z l -> In 1%Z l -> Forall (fun b => b = 0%Z \/ b = 1%Z) l ->
  np_unique l = [0; 1]%Z.
Proof.
  intros H0 H1 Hall. apply sorted_lt_unique.
  - apply np_unique_sorted.
  - repeat constructor.
  - intros x. rewrite np_unique_In. simpl. split.
    + intros Hx. rewrite Forall_forall in Hall.
      destruct (Hall x Hx) as [->| ->]; auto.
    + intros [<-|[<-|[]]]; assumption.
Qed.

Lemma binary_labels_values (labels : list Z) (c : Z) :
  Forall (fun b => b = 0%Z \/ b = 1%Z) (binary_labels labels c).
Proof.
  unfold binary_labels. apply Forall_map, Forall_forall. intros l _.
  destruct (l =? c)%Z; auto.
Qed.

Lemma rows_at_In {A : Type} (d : A) (l : list A) (idx : list nat) (q : nat) (x : A) :
  In q idx -> nth_error l q = Some x -> In x (rows_at d l idx).
Proof.
  intros Hq Hx. unfold rows_at. apply in_map_iff. exists q. split; [|assumption].
  now apply nth_error_nth.
Qed.

Lemma rows_at_Forall {A : Type} (P : A -> Prop) (d : A) (l : list A)
  (idx : list nat) :
  Forall P l -> Forall (fun q => q < length l) idx -> Forall P (rows_at d l idx).
Proof.
  intros HP Hidx. unfold rows_at. apply Forall_map.
  eapply Forall_impl; [|exact Hidx]. intros q Hq. simpl in Hq.
  rewrite Forall_forall in HP. apply HP. now apply nth_In.
Qed.

Lemma rows_at_all {A : Type} (d : A) (l : list A) :
  rows_at d l (seq 0 (length l)) = l.
Proof. apply nth_seq_self. Qed.

Lemma select_training_spec (X_all : matrix) (labels : list Z) (c : Z)
  (ratio : option nat) (g : RandomState) :
  In c labels -> 2 <= length (np_unique labels) -> ratio <> Some 0 ->
  length X_all = length labels ->
  exists idx g',
    select_training X_all (binary_labels labels c) ratio g
      = Ok (rows_at [] X_all idx, rows_at 0%Z (binary_labels labels c) idx, g') /\
    Forall (fun q => q < length labels) idx /\
    (ratio = None -> idx = seq 0 (length labels)) /\
    np_unique (rows_at 0%Z (binary_labels labels c) idx) = [0; 1]%Z.
Proof.
  intros Hc H2 Hr HX.
  set (Y := binary_labels labels c).
  assert (HY : length Y = length labels) by (unfold Y, binary_labels; apply length_map).
  pose proof (posIdx_nonempty labels c Hc) as Hpos. fold Y in Hpos.
  destruct (other_class labels c H2) as (l & Hl & Hlc).
  pose proof (negPool_nonempty labels c l Hl Hlc) as Hneg. fold Y in Hneg.
  destruct ratio as [r|]; simpl.
  - destruct (random_choice_ok (negPool Y) (r * length (posIdx Y)) g Hneg)
      as (draws & g' & Hd & Hlen & Hin).
    exists (posIdx Y ++ draws), g'.
    assert (Hb : Forall (fun q => q < length labels) (posIdx Y ++ draws)).
    { apply Forall_app. rewrite <- HY. split; [apply where_eq_bound|].
      eapply Forall_impl; [|exact Hin]. intros q Hq. simpl in Hq.
      pose proof (where_eq_bound 0%Z Y) as Hw. rewrite Forall_forall in Hw.
      now apply Hw. }
    split; [|split; [exact Hb|split; [discriminate|]]].
    + unfold negIdx. rewrite Hd. simpl.
      rewrite (take_ok X_all _ []) by now rewrite HX.
      simpl. rewrite (take_ok Y _ 0%Z) by now rewrite HY.
      reflexivity.
    + apply np_unique_binary.
      * destruct draws as [|q t].
        { simpl in Hlen. destruct (posIdx Y); [contradiction|].
          destruct r; [contradiction|]. simpl in Hlen. lia. }
        inversion Hin as [|? ? Hq _]; subst.
        apply rows_at_In with (q := q); [apply in_or_app; right; now left|].
        now apply where_eq_In.
      * destruct (posIdx Y) as [|q t] eqn:Ep; [contradiction|].
        apply rows_at_In with (q := q); [now left|].
        apply where_eq_In. unfold posIdx in Ep. rewrite Ep. now left.
      * apply rows_at_Forall; [apply binary_labels_values | now rewrite HY].
  - exists (seq 0 (length labels)), g.
    split; [|split; [|split; [reflexivity|]]].
    + rewrite <- HX at 1. rewrite <- HY. now rewrite !rows_at_all.
    + apply Forall_forall. intros q Hq. apply in_seq in Hq. lia.
    + rewrite <- HY, rows_at_all. apply np_unique_binary.
      * destruct (negPool Y) as [|q t] eqn:Ep; [contradiction|].
        assert (Hq : In q (negPool Y)) by (rewrite Ep; now left).
        apply where_eq_In in Hq. eapply nth_error_In; eauto.
      * destruct (posIdx Y) as [|q t] eqn:Ep; [contradiction|].
        assert (Hq : In q (posIdx Y)) by (rewrite Ep; now left).
        apply where_eq_In in Hq. eapply nth_error_In; eauto.
      * apply binary_labels_values.
Qed.

Lemma test_scores_spec (clf : Classifier) (X : matrix) (y : list Z)
  (X_test : matrix) :
  np_unique y = [0; 1]%Z ->
  test_scores clf (fit clf X y) X_test
    = Ok (class_scores clf (fit clf X y) X_test) /\
  length (class_scores clf (fit clf X y) X_test) = length X_test.
Proof.
  intros Hy. unfold test_scores, class_scores.
  pose proof (decision_length clf) as Hd.
  destruct (decision_function clf) as [d|].
  - split; [reflexivity|]. now apply Hd.
  - pose proof (proba_shape clf X y X_test) as Hp. rewrite Hy in Hp.
    apply has_shape_spec in Hp as [Hl Hrows]. split.
    + apply column_ok. eapply Forall_impl; [|exact Hrows].
      intros row ->. simpl. lia.
    + unfold col_of. now rewrite length_map.
Qed.

Section OvrLoop.
Variables (clf : Classifier) (labels : list Z).
Variables (x_wTrain x_wTest NBWeights : matrix) (ratio : option nat).
Variables (nTokens nTest : nat).
Hypothesis tokens : 0 < nTokens.
Hypothesis train_shape : has_shape nTokens (length labels) x_wTrain = true.
Hypothesis test_shape : has_shape nTokens nTest x_wTest = true.
Hypothesis weights_shape :
  has_shape nTokens (length (np_unique labels)) NBWeights = true.
Hypothesis two_classes : 2 <= length (np_unique labels).
Hypothesis draws_some : ratio <> Some 0.

Lemma ovr_class_spec (i : nat) (g : RandomState) :
  i < length (np_unique labels) ->
  exists col g',
    ovr_class clf (get_dummies labels) x_wTrain x_wTest NBWeights ratio
              nTest i g = Ok (col, g') /\
    length col = nTest /\
    ovr_column_spec clf labels x_wTrain x_wTest NBWeights ratio i col.
Proof.
  intros Hi. unfold ovr_class.
  rewrite column_ok.
  2:{ apply has_shape_spec in weights_shape as [_ HF].
      eapply Forall_impl; [|exact HF]. intros row ->. exact Hi. }
  simpl.
  destruct (features_ok x_wTrain NBWeights _ _ _ i tokens train_shape weights_shape)
    as [-> HlX].
  simpl. rewrite (get_dummies_column labels i Hi). simpl.
  destruct (features_ok x_wTest NBWeights _ _ _ i tokens test_shape weights_shape)
    as [-> HlT].
  simpl.
  assert (Hc : In (nth i (np_unique labels) 0%Z) labels).
  { apply np_unique_In. now apply nth_In. }
  destruct (select_training_spec (nb_features x_wTrain NBWeights i) labels
              (nth i (np_unique labels) 0%Z) ratio g Hc two_classes draws_some HlX)
    as (idx & g' & -> & Hb & Hnone & Hu).
  simpl.
  destruct (test_scores_spec clf
              (rows_at [] (nb_features x_wTrain NBWeights i) idx)
              (rows_at 0%Z (binary_labels labels (nth i (np_unique labels) 0%Z)) idx)
              (nb_features x_wTest NBWeights i) Hu) as [-> Hlen].
  simpl. unfold assign_column. rewrite Hlen, HlT, Nat.eqb_refl. simpl.
  eexists _, _. split; [reflexivity|]. split; [congruence|].
  exists idx. auto.
Qed.

Lemma ovr_loop_spec (classes : list nat) (g : RandomState) :
  Forall (fun i => i < length (np_unique labels)) classes ->
  exists cols g',
    ovr_loop clf (get_dummies labels) x_wTrain x_wTest NBWeights ratio
             nTest classes g = Ok (cols, g') /\
    Forall2 (fun i col =>
               length col = nTest /\
               ovr_column_spec clf labels x_wTrain x_wTest NBWeights ratio i col)
            classes cols.
Proof.
  intros H. revert g. induction H as [|i rest Hi _ IH]; intros g; simpl.
  - eexists _, _. split; [reflexivity | constructor].
  - destruct (ovr_class_spec i g Hi) as (col & g1 & -> & Hl & Hs). simpl.
    destruct (IH g1) as (cols & g2 & -> & Hall). simpl.
    eexists _, _. split; [reflexivity|]. constructor; auto.
Qed.

End OvrLoop.

Lemma Forall2_seq_nth {A : Type} (P : nat -> A -> Prop) (a n : nat)
  (l : list A) (d : A) :
  Forall2 P (seq a n) l ->
  length l = n /\ forall i, i < n -> P (a + i) (nth i l d).
Proof.
  revert a l. induction n as [|n IH]; intros a l H; simpl in H.
  - inversion H; subst. split; [reflexivity | intros; lia].
  - inversion H as [|? x ? t Hx Ht]; subst.
    destruct (IH _ _ Ht) as [Hl Hn]. split; [simpl; lia|].
    intros [|i] Hi; simpl.
    + now rewrite Nat.add_0_r.
    + replace (a + S i) with (S a + i) by lia. apply Hn. lia.
Qed.

Lemma of_columns_shape (n : nat) (cols : list vector) :
  has_shape n (length cols) (of_columns n cols) = true.
Proof.
  apply has_shape_spec. unfold of_columns. split.
  - now rewrite length_map, length_seq.
  - apply Forall_map, Forall_forall. intros q _. now rewrite length_map.
Qed.

Lemma col_of_of_columns (n : nat) (cols : list vector) (i : nat) :
  i < length cols -> length (nth i cols []) = n ->
  col_of (of_columns n cols) i = nth i cols [].
Proof.
  intros Hi Hn. unfold col_of, of_columns. rewrite map_map.
  transitivity (map (fun q => nth q (nth i cols []) 0%Q) (seq 0 n)).
  - apply map_ext. intros q. now rewrite nth_map_in with (d' := @nil Q).
  - rewrite <- Hn. apply nth_seq_self.
Qed.

(** C6. For at least two classes and a draw ratio that is not 0,
    [ovrClassifier] returns [softmax] of a questions-by-classes matrix
    whose column for class [i], independently of the other classes, is the
    score of the test features of class [i] (each test question's
    term-frequency vector times column [i] of the NB weights, elementwise)
    under the estimator fitted on rows of the class's training features
    with the binary labels of the class (1 for its questions, 0 for the
    others): the decision value when the estimator has one, the predicted
    probability of the positive class if not. *)
Theorem ovrClassifier_columns (softmax : matrix -> matrix) (clf : Classifier)
  (labels : list Z) (x_wTrain x_wTest NBWeights : matrix)
  (ratio : option nat) (g : RandomState) (nTokens nTest : nat) :
  0 < nTokens ->
  has_shape nTokens (length labels) x_wTrain = true ->
  has_shape nTokens nTest x_wTest = true ->
  has_shape nTokens (length (np_unique labels)) NBWeights = true ->
  2 <= length (np_unique labels) ->
  ratio <> Some 0 ->
  exists Y g',
    ovrClassifier softmax labels x_wTrain x_wTest NBWeights clf ratio g
      = Ok (softmax Y, g') /\
    has_shape nTest (length (np_unique labels)) Y = true /\
    forall i, i < length (np_unique labels) ->
      ovr_column_spec clf labels x_wTrain x_wTest NBWeights ratio i (col_of Y i).
Proof.
  intros HT Htr Hte HW H2 Hr.
  destruct (ovr_loop_spec clf labels x_wTrain x_wTest NBWeights ratio
              nTokens nTest HT Htr Hte HW H2 Hr
              (seq 0 (length (np_unique labels))) g)
    as (cols & g' & Hloop & Hall).
  { apply Forall_forall. intros i Hi. apply in_seq in Hi. lia. }
  destruct (Forall2_seq_nth _ _ _ _ [] Hall) as [Hlen Hnth].
  exists (of_columns nTest cols), g'.
  split; [|split].
  - unfold ovrClassifier, ovr_scores, uniqueLabel.
    rewrite (ncols_shape _ _ _ HT Hte), Hloop. reflexivity.
  - rewrite <- Hlen. apply of_columns_shape.
  - intros i Hi. destruct (Hnth i Hi) as [Hl Hs].
    rewrite col_of_of_columns; [exact Hs | | exact Hl].
    unfold vector in *. congruence.
Qed.

(** ** The class order *)

Lemma N_wA_entry (nTokens : nat) (tokenIds : list (list nat))
  (trainAnswerId : list Z) (w j : nat) :
  w < nTokens -> j < length (uniqueAnswerId trainAnswerId) ->
  entry (N_wA nTokens tokenIds trainAnswerId) w j
  = inject_Z (Z.of_nat (group_count tokenIds trainAnswerId w
                          (nth j (uniqueAnswerId trainAnswerId) 0%Z))).
Proof.
  intros Hw Hj. unfold entry, row_of, N_wA, countMatrix_grouped.
  rewrite nth_map_seq by assumption.
  now rewrite nth_map_in with (d' := 0%Z).
Qed.

(** ** A concrete estimator *)

Lemma nn_proba_shape (X : matrix) (y : list Z) (Xt : matrix) :
  has_shape (length Xt) (length (np_unique y)) (nn_predict_proba (X, y) Xt)
  = true.
Proof.
  apply has_shape_spec. unfold nn_predict_proba. simpl. split.
  - apply length_map.
  - apply Forall_map, Forall_forall. intros t _. apply length_map.
Qed.

Lemma nn_decision_length (d : matrix * list Z -> matrix -> vector)
  (X : matrix) (y : list Z) (Xt : matrix) :
  @None (matrix * list Z -> matrix -> vector) = Some d ->
  length (d (X, y) Xt) = length Xt.
Proof. discriminate. Qed.

Definition nn_classifier : Classifier := {|
  fitted := matrix * list Z;
  fit := fun X y => (X, y);
  decision_function := None;
  predict_proba := nn_predict_proba;
  decision_length := nn_decision_length;
  proba_shape := nn_proba_shape
|}.

(** ** Worked examples *)

Example np_unique_example :
  np_unique [30; 10; 20; 10; 30]%Z = [10; 20; 30]%Z.
Proof. reflexivity. Qed.

Example rank_example :
  rank example_testQ example_scores [10; 20; 30]%Z =
  Ok {| AnswerId := [20; 10]%Z;
        SortedAnswers := Some [[20; 30; 10]; [10; 20; 30]]%Z;
        Rank := Some [1; 1] |}.
Proof. reflexivity. Qed.

(** The floor is taken of the mean: ranks 1 and 2 have mean 3/2 and
    Average Rank 1, where rounding or the ceiling would give 2. *)
Example AR_example :
  AR [1; 2] = Some 1%Q /\ AR [1; 2; 5] = Some 2%Q /\ AR [] = None /\
  Qceiling (3 # 2) = 2%Z /\ round_half_even (3 # 2) = 2%Z.
Proof. repeat split; reflexivity. Qed.

Example top3_example :
  top3 [1; 4; 2] = Ok (667 # 1000)%Q /\ top3 [] = Raise ZeroDivisionError.
Proof. split; reflexivity. Qed.

(** ** Reproducibility *)

(** C2 fails on the code.  [ovrClassifier] has no seed argument and the
    notebook never seeds the generator that [np.random.choice] reads: the
    call of cell 8, with the same labels, features, weights, estimator and
    ratio, gives other scores from another state of that generator (here
    the first column is 1 in one run and 0 in the other, the second is 1
    in both). *)
Theorem Y_test_prob3_depends_on_generator (softmax : matrix -> matrix) :
  (exists g1 g2,
     negIdx [1; 0; 0]%Z 3 (fun _ => 0) = Ok ([1; 1; 1], g1) /\
     negIdx [1; 0; 0]%Z 3 (fun _ => 1) = Ok ([2; 2; 2], g2)) /\
  (exists g1 g2,
     Y_test_prob3 softmax [1; 2; 2]%Z example_x_wTrain example_x_wTest
                  example_NBWeights nn_classifier (fun _ => 0)
       = Ok (softmax [[1; 1]]%Q, g1) /\
     Y_test_prob3 softmax [1; 2; 2]%Z example_x_wTrain example_x_wTest
                  example_NBWeights nn_classifier (fun _ => 1)
       = Ok (softmax [[0; 1]]%Q, g2)) /\
  ~ (entry [[1; 1]]%Q 0 0 == entry [[0; 1]]%Q 0 0)%Q.
Proof.
  split; [|split].
  - eexists _, _. split; reflexivity.
  - eexists _, _. split; reflexivity.
  - discriminate.
Qed.

(** ** The theorems at concrete inputs *)

Lemma rank_unseen_answer_raises_witness :
  rank {| AnswerId := [7]%Z; SortedAnswers := None; Rank := None |}
       [[1; 2]]%Q [1; 2]%Z = Raise IndexError.
Proof.
  refine (proj1 (proj2 (rank_unseen_answer_raises
            {| AnswerId := [7]%Z; SortedAnswers := None; Rank := None |}
            [[1; 2]]%Q [1; 2]%Z _)) eq_refl).
  exists 7%Z. split; [now left|].
  simpl. intros [H|[H|[]]]; discriminate.
Defined.

Lemma rank_is_position_witness :
  exists sorted ranks,
    rank example_testQ example_scores [10; 20; 30]%Z =
      Ok {| AnswerId := [20; 10]%Z;
            SortedAnswers := Some sorted;
            Rank := Some ranks |} /\
    Forall (fun r => 1 <= r <= 3) ranks.
Proof.
  destruct (rank_is_position example_testQ example_scores [10; 20; 30]%Z)
    as (sorted & ranks & H1 & _ & _ & H2 & _).
  - apply sorted_lt_NoDup. repeat constructor; reflexivity.
  - reflexivity.
  - repeat constructor.
  - repeat (apply Forall_cons; [simpl; auto|]). apply Forall_nil.
  - exists sorted, ranks. split; assumption.
Defined.

Lemma AR_floor_of_mean_witness :
  exists k : Z, AR [1; 2; 5] = Some (inject_Z k) /\
                is_floor_of k (mean_rank [1; 2; 5]).
Proof.
  destruct (AR_floor_of_mean [1; 2; 5]) as (k & _ & H1 & H2 & _).
  - discriminate.
  - exists k. split; assumption.
Defined.

Lemma top3_rounded_fraction_witness :
  exists t : Q, top3 [1; 4; 2] = Ok t /\
                rounded_3_places t (top3_fraction [1; 4; 2]).
Proof.
  destruct (top3_rounded_fraction [1; 4; 2]) as (t & H1 & _ & H2).
  - discriminate.
  - exists t. split; assumption.
Defined.

Lemma ensemble_mean_preserves_rows_witness :
  exists E,
    Y_test_prob_aggr [[1 # 2; 1 # 2]]%Q [[1 # 4; 3 # 4]]%Q [[1; 0]]%Q = Ok E /\
    (Qsum (row_of E 0) == 1)%Q.
Proof.
  destruct (ensemble_mean_preserves_rows
              [[1 # 2; 1 # 2]]%Q [[1 # 4; 3 # 4]]%Q [[1; 0]]%Q 1 2
              eq_refl eq_refl eq_refl) as (E & H1 & _ & _ & H2).
  exists E. split; [exact H1|].
  apply H2; [lia | reflexivity | reflexivity | reflexivity].
Defined.

Lemma Y_test_prob1_softmax_dot_witness :
  exists S,
    Y_test_prob1 (fun M => M) [[3 # 4]; [1 # 4]]%Q example_NBWeights = Ok S /\
    entry S 0 0 = dot_vec [3 # 4; 1 # 4]%Q [1; -1]%Q.
Proof.
  destruct (Y_test_prob1_softmax_dot (fun M => M)
              [[3 # 4]; [1 # 4]]%Q example_NBWeights 2 1 2)
    as (S & H1 & _ & _ & H2).
  - lia.
  - reflexivity.
  - reflexivity.
  - exists S. split; [exact H1|]. apply (H2 0 0); lia.
Defined.

Lemma ovrClassifier_columns_witness :
  exists Y g',
    ovrClassifier (fun M => M) [1; 2; 2]%Z example_x_wTrain example_x_wTest
                  example_NBWeights nn_classifier (Some 3) (fun _ => 0)
      = Ok (Y, g') /\
    has_shape 1 2 Y = true.
Proof.
  destruct (ovrClassifier_columns (fun M => M) nn_classifier [1; 2; 2]%Z
              example_x_wTrain example_x_wTest example_NBWeights (Some 3)
              (fun _ => 0) 2 1) as (Y & g' & H1 & H2 & _).
  - lia.
  - reflexivity.
  - reflexivity.
  - reflexivity.
  - simpl. lia.
  - discriminate.
  - exists Y, g'. split; assumption.
Defined.

(** * Further properties of the code *)

(** ** The evaluator: errors and what a returned frame holds *)

Lemma getitem_raise_at {A : Type} (a : list A) (i : nat) :
  length a <= i -> getitem a i = Raise IndexError.
Proof.
  intros Hi. unfold getitem.
  apply nth_error_None in Hi. now rewrite Hi.
Qed.

Section RankMore.
Context {sorter : ArgSort}.

Lemma sorted_rows_ok (uniq : list Z) (scores : matrix) :
  Forall (fun row => length row = length uniq) scores ->
  exists sorted,
    mapM (sorted_answers_row uniq) scores = Ok sorted /\
    length sorted = length scores.
Proof.
  intros H.
  exists (map (fun row => map (fun j => nth j uniq 0%Z)
                              (argsort (map Qopp row))) scores).
  split; [|apply length_map].
  apply mapM_ok. eapply Forall_impl; [|exact H].
  intros row Hrow. now apply sorted_answers_row_ok.
Qed.

(** X1. With one score per class in every row, a score matrix whose
    number of rows differs from the number of test questions makes [rank]
    raise.  For a frame with rows the error is [ValueError]: the sorted
    answers cannot be stored as a column.  For a frame with no row the
    column is stored, the frame takes its rows, and the first lookup raises
    [IndexError]. *)
Theorem rank_row_count_mismatch (f : frame) (scores : matrix) (uniq : list Z) :
  Forall (fun row => length row = length uniq) scores ->
  length scores <> len f ->
  rank f scores uniq
  = Raise (if len f =? 0 then IndexError else ValueError).
Proof.
  intros Hrows Hne. unfold rank.
  destruct (sorted_rows_ok uniq scores Hrows) as (sorted & -> & Hlen).
  simpl. rewrite Hlen.
  destruct (Nat.eqb_spec (len f) 0) as [E0|E0]; simpl.
  - destruct (Nat.eqb_spec (length scores) 0) as [E|E]; [lia | reflexivity].
  - destruct (Nat.eqb_spec (length scores) (len f)); [contradiction|reflexivity].
Qed.

Lemma sorted_answers_row_too_long (uniq : list Z) (row : list Q) :
  length uniq < length row ->
  sorted_answers_row uniq row = Raise IndexError.
Proof.
  intros Hlt. unfold sorted_answers_row.
  assert (Hin : In (length uniq) (argsort (map Qopp row))).
  { eapply Permutation_in; [symmetry; apply argsort_perm|].
    apply in_seq. rewrite length_map. lia. }
  destruct (mapM_fails (getitem uniq) _ _ Hin) as [e He].
  - exists IndexError. apply getitem_raise_at. lia.
  - unfold take. rewrite He. f_equal. now apply (take_exn uniq (argsort (map Qopp row)) e).
Qed.

(** X2. A score row with more entries than there are classes makes [rank]
    raise [IndexError]: the sorted column positions do not all name a
    class. *)
Theorem rank_too_many_scores (f : frame) (scores : matrix) (uniq : list Z) :
  (exists row, In row scores /\ length uniq < length row) ->
  rank f scores uniq = Raise IndexError.
Proof.
  intros (row & Hin & Hlt). unfold rank.
  destruct (mapM_fails (sorted_answers_row uniq) scores row Hin) as [e He].
  - exists IndexError. now apply sorted_answers_row_too_long.
  - rewrite He. simpl. f_equal.
    apply mapM_raise_inv in He as (row' & _ & Hrow').
    now apply take_exn in Hrow'.
Qed.

Lemma sorted_answers_row_length (uniq : list Z) (row : list Q) (s : list Z) :
  sorted_answers_row uniq row = Ok s ->
  length s = length row /\ length row <= length uniq.
Proof.
  intros H. split.
  - apply take_inv in H as [Hl _]. rewrite Hl.
    rewrite (Permutation_length (argsort_perm (map Qopp row))).
    now rewrite length_seq, length_map.
  - destruct (Nat.le_gt_cases (length row) (length uniq)) as [|Hgt]; [assumption|].
    rewrite (sorted_answers_row_too_long uniq row Hgt) in H. discriminate.
Qed.

Lemma rank_lookup_inv (sorted : list Z) (a : Z) (r : nat) :
  rank_lookup sorted a = Ok r ->
  In a sorted /\ 1 <= r <= length sorted /\ nth_error sorted (r - 1) = Some a.
Proof.
  intros H.
  destruct (in_dec Z.eq_dec a sorted) as [Hin|Hnin].
  - destruct (rank_lookup_ok sorted a Hin) as (p & Hp & Hnth & _).
    rewrite Hp in H. injection H as <-.
    split; [assumption|]. replace (p + 1 - 1) with p by lia.
    split; [|assumption].
    assert (p < length sorted) by (apply nth_error_Some; congruence). lia.
  - destruct (rank_lookup_raise sorted a Hnin) as [_ Hr]. congruence.
Qed.

Lemma rank_inv (f f' : frame) (scores : matrix) (uniq : list Z) :
  rank f scores uniq = Ok f' ->
  exists sorted ranks,
    f' = {| AnswerId := AnswerId f;
            SortedAnswers := Some sorted;
            Rank := Some ranks |} /\
    mapM (sorted_answers_row uniq) scores = Ok sorted /\
    length sorted = len f /\
    mapM (fun sa => rank_lookup (fst sa) (snd sa))
         (combine sorted (AnswerId f)) = Ok ranks.
Proof.
  unfold rank.
  destruct (mapM (sorted_answers_row uniq) scores) as [sorted|e] eqn:Es;
    simpl; [|discriminate].
  destruct ((len f =? 0) && negb (length sorted =? 0)); [discriminate|].
  destruct (Nat.eqb_spec (length sorted) (len f)) as [Hl|Hl]; simpl;
    [|discriminate].
  destruct (mapM _ (combine sorted (AnswerId f))) as [ranks|e] eqn:Er;
    simpl; [|discriminate].
  intros [= <-]. exists sorted, ranks. auto.
Qed.

(** X3. Whatever the inputs, a frame that [rank] returns keeps the
    [AnswerId] column, has one score row, one row of sorted answers and one
    rank per question, every answer id is one of the classes, and every
    rank lies between 1 and the number of classes. *)
Theorem rank_returns_valid_frame (f f' : frame) (scores : matrix)
  (uniq : list Z) :
  rank f scores uniq = Ok f' ->
  AnswerId f' = AnswerId f /\
  length scores = len f /\
  Forall (fun a => In a uniq) (AnswerId f) /\
  exists sorted ranks,
    SortedAnswers f' = Some sorted /\ Rank f' = Some ranks /\
    length sorted = len f /\ length ranks = len f /\
    Forall (fun r => 1 <= r <= length uniq) ranks.
Proof.
  intros H. destruct (rank_inv _ _ _ _ H) as (sorted & ranks & -> & Hs & Hl & Hr).
  simpl. split; [reflexivity|].
  apply mapM_inv in Hs. pose proof (Forall2_length Hs) as Hls.
  split; [congruence|].
  apply mapM_inv in Hr. pose proof (Forall2_length Hr) as Hlr.
  rewrite length_combine in Hlr. unfold len in *.
  assert (Hpairs : forall s a, In (s, a) (combine sorted (AnswerId f)) ->
            Forall (fun c => In c uniq) s /\ length s <= length uniq).
  { intros s a Hin. apply in_combine_l in Hin.
    destruct (Forall2_In_r _ _ _ s Hs Hin) as (row & _ & Hrow).
    split; [now apply sorted_answers_row_members in Hrow|].
    apply sorted_answers_row_length in Hrow. lia. }
  split.
  - apply Forall_forall. intros a Ha.
    destruct (in_combine_snd sorted (AnswerId f) a Hl Ha) as [s Hin].
    destruct (Hpairs s a Hin) as [Hmem _].
    assert (Hex : exists r, rank_lookup s a = Ok r).
    { clear - Hr Hin. induction Hr as [|x y l l' Hxy _ IH]; [contradiction|].
      destruct Hin as [->|Hin]; [eauto | auto]. }
    destruct Hex as [r Hra]. apply rank_lookup_inv in Hra as [Hina _].
    rewrite Forall_forall in Hmem. auto.
  - exists sorted, ranks. repeat split; try reflexivity; try lia.
    assert (Hall : Forall (fun sa => Forall (fun c => In c uniq) (fst sa) /\
                                     length (fst sa) <= length uniq)
                          (combine sorted (AnswerId f))).
    { apply Forall_forall. intros [s a] Hin. simpl. eauto. }
    clear - Hr Hall. induction Hr as [|x y l l' Hxy _ IH]; constructor.
    + inversion Hall as [|? ? [_ Hx] _]; subst.
      apply rank_lookup_inv in Hxy as (_ & Hb & _). lia.
    + apply IH. now inversion Hall.
Qed.

End RankMore.

(** ** The evaluator: the best class *)

Lemma filter_at_most_one {A : Type} (g : A -> bool) (l : list A) (a : A) :
  NoDup l -> (forall c, In c l -> g c = true -> c = a) ->
  length (filter g l) <= 1.
Proof.
  intros Hnd Ha. induction Hnd as [|x t Hx Ht IH]; simpl; [lia|].
  destruct (g x) eqn:Ex.
  - assert (x = a) as -> by (apply Ha; [now left | assumption]).
    rewrite filter_none; [simpl; lia|].
    apply Forall_forall. intros c Hc. destruct (g c) eqn:Ec; [|reflexivity].
    exfalso. apply Hx. rewrite <- (Ha c); auto. now right.
  - apply IH. intros c Hc. apply Ha. now right.
Qed.

Section RankBest.
Context {sorter : ArgSort}.

(** X4. A test question whose true class scores strictly more than every
    other class gets rank 1, however [argsort] orders equal scores. *)
Theorem rank_of_strict_best (f : frame) (scores : matrix) (uniq : list Z)
  (i : nat) (row : list Q) (a : Z) :
  NoDup uniq ->
  length scores = len f ->
  Forall (fun row => length row = length uniq) scores ->
  Forall (fun a => In a uniq) (AnswerId f) ->
  nth_error scores i = Some row ->
  nth_error (AnswerId f) i = Some a ->
  (forall c, In c uniq -> c <> a ->
     (class_score uniq row c < class_score uniq row a)%Q) ->
  exists f' ranks,
    rank f scores uniq = Ok f' /\ Rank f' = Some ranks /\
    nth_error ranks i = Some 1.
Proof.
  intros Hnd Hlen Hrows Hans Hrow Ha Hbest.
  destruct (rank_rows uniq scores (AnswerId f) Hnd Hlen Hrows Hans)
    as (sorted & ranks & Hs & Hr & Hls & Hlr & Hall).
  rewrite (rank_agree f scores uniq sorted Hs Hls).
  unfold len in *. rewrite Hr. simpl.
  eexists _, ranks. split; [reflexivity|]. split; [reflexivity|].
  assert (Hi : i < length (AnswerId f)) by (apply nth_error_Some; congruence).
  destruct (nth_error sorted i) as [srt|] eqn:E1;
    [|apply nth_error_None in E1; lia].
  destruct (nth_error ranks i) as [r|] eqn:E2;
    [|apply nth_error_None in E2; lia].
  destruct (Hall i row a srt r Hrow Ha E1 E2)
    as (_ & _ & _ & _ & [Hlo _] & [_ Hhi]).
  f_equal. unfold count_at_least in Hhi.
  pose proof (filter_at_most_one
    (fun c => Qle_bool (class_score uniq row a) (class_score uniq row c))
    uniq a Hnd) as Hone.
  assert (length (filter (fun c => Qle_bool (class_score uniq row a)
                                            (class_score uniq row c)) uniq) <= 1).
  { apply Hone. intros c Hc Hle. apply Qle_bool_iff in Hle.
    destruct (Z.eq_dec c a) as [|Hne]; [assumption|].
    specialize (Hbest c Hc Hne). lra. }
  lia.
Qed.

(** X5. With one score per class, the first of a question's sorted answers
    is a class of highest score. *)
Theorem first_sorted_answer_is_best (uniq : list Z) (row : list Q) :
  NoDup uniq -> length row = length uniq -> uniq <> [] ->
  exists c0 rest,
    sorted_answers_row uniq row = Ok (c0 :: rest) /\
    In c0 uniq /\
    forall c, In c uniq ->
      (class_score uniq row c <= class_score uniq row c0)%Q.
Proof.
  intros Hnd Hlen Hne.
  destruct (sorted_answers_row_ok uniq row Hlen) as [Hok Hperm].
  pose proof (sorted_answers_descending uniq row Hnd Hlen) as Hdesc.
  destruct (map (fun j => nth j uniq 0%Z) (argsort (map Qopp row)))
    as [|c0 rest] eqn:E.
  - apply Permutation_nil in Hperm. congruence.
  - exists c0, rest. split; [exact Hok|]. split.
    + eapply Permutation_in; [exact Hperm | now left].
    + intros c Hc. apply Permutation_sym in Hperm.
      apply (Permutation_in _ Hperm) in Hc. destruct Hc as [<-|Hc].
      * apply Qle_refl.
      * unfold descending in Hdesc. inversion Hdesc as [|? ? _ Hall]; subst.
        rewrite Forall_forall in Hall. now apply Hall.
Qed.

End RankBest.

(** ** The metrics: ranges, extremes and question order *)

Lemma sum_ranks_bounds (ranks : list nat) (lo hi : nat) :
  Forall (fun r => lo <= r <= hi) ranks ->
  (Z.of_nat lo * Z.of_nat (length ranks) <= sum_ranks ranks
   <= Z.of_nat hi * Z.of_nat (length ranks))%Z.
Proof.
  induction 1 as [|r t Hr _ IH]; simpl sum_ranks; simpl length; [lia|].
  rewrite Nat2Z.inj_succ. lia.
Qed.

Lemma AR_value (ranks : list nat) :
  ranks <> [] ->
  AR ranks
  = Some (inject_Z (sum_ranks ranks / Z.of_nat (length ranks))%Z).
Proof.
  intros Hne. destruct ranks as [|r t]; [contradiction|].
  unfold AR, np_floor, Series_mean. cbv beta iota delta [option_map].
  do 2 f_equal. symmetry. apply Zdiv_Qdiv.
Qed.

Lemma AR_quotient_bounds (ranks : list nat) (lo hi : nat) :
  ranks <> [] ->
  Forall (fun r => lo <= r <= hi) ranks ->
  (Z.of_nat lo <= sum_ranks ranks / Z.of_nat (length ranks) <= Z.of_nat hi)%Z.
Proof.
  intros Hne Hall. pose proof (sum_ranks_bounds ranks lo hi Hall) as [Hlo Hhi].
  assert (Hn : (0 < Z.of_nat (length ranks))%Z).
  { destruct ranks; [contradiction | simpl; lia]. }
  split.
  - apply Z.div_le_lower_bound; [assumption | lia].
  - apply Z.div_le_upper_bound; [assumption | lia].
Qed.

(** X6. For a non-empty test set whose ranks all lie between [lo] and
    [hi], Average Rank is an integer between [lo] and [hi]. *)
Theorem AR_between_bounds (ranks : list nat) (lo hi : nat) :
  ranks <> [] ->
  Forall (fun r => lo <= r <= hi) ranks ->
  exists k : Z,
    AR ranks = Some (inject_Z k) /\ (Z.of_nat lo <= k <= Z.of_nat hi)%Z.
Proof.
  intros Hne Hall.
  exists (sum_ranks ranks / Z.of_nat (length ranks))%Z. split.
  - now apply AR_value.
  - now apply AR_quotient_bounds.
Qed.

Lemma round_half_even_integer (x : Q) (k : Z) :
  (x == inject_Z k)%Q -> round_half_even x = k.
Proof.
  intros Hx. pose proof (round_half_even_near x) as [Hlo Hhi].
  assert (H1 : (k < round_half_even x + 1)%Z).
  { rewrite Zlt_Qlt. rewrite inject_Z_plus.
    change (inject_Z 1) with 1%Q. lra. }
  assert (H2 : (round_half_even x < k + 1)%Z).
  { rewrite Zlt_Qlt. rewrite inject_Z_plus.
    change (inject_Z 1) with 1%Q. lra. }
  lia.
Qed.

Lemma py_round_unit (x : Q) :
  (0 <= x <= 1)%Q -> (0 <= py_round x 3 <= 1)%Q.
Proof.
  intros [H0 H1]. unfold py_round.
  change (10 ^ Z.of_nat 3)%Z with 1000%Z.
  pose proof (round_half_even_near (x * inject_Z 1000)) as [Hlo Hhi].
  change (inject_Z 1000) with (1000 # 1)%Q in *.
  set (z := round_half_even (x * (1000 # 1))) in *.
  assert (Hz0 : (0 <= z)%Z).
  { assert (H : (-1 < z)%Z); [|lia].
    rewrite Zlt_Qlt. change (inject_Z (-1)) with (-(1))%Q. lra. }
  assert (Hz1 : (z <= 1000)%Z).
  { assert (H : (z < 1001)%Z); [|lia].
    rewrite Zlt_Qlt. change (inject_Z 1001) with (1001 # 1)%Q. lra. }
  rewrite Zle_Qle in Hz0, Hz1.
  change (inject_Z 0) with 0%Q in Hz0.
  change (inject_Z 1000) with (1000 # 1)%Q in Hz1.
  unfold Qdiv. change (/ (1000 # 1))%Q with (1 # 1000)%Q. lra.
Qed.

Lemma fraction_unit (c n : nat) :
  c <= n -> 0 < n ->
  (0 <= inject_Z (Z.of_nat c) / inject_Z (Z.of_nat n) <= 1)%Q.
Proof.
  intros Hc Hn.
  assert (Hn' : (0 < inject_Z (Z.of_nat n))%Q).
  { change 0%Q with (inject_Z 0). rewrite <- Zlt_Qlt. lia. }
  split.
  - apply Qle_shift_div_l; [assumption|].
    rewrite Qmult_0_l. change 0%Q with (inject_Z 0). rewrite <- Zle_Qle. lia.
  - apply Qle_shift_div_r; [assumption|].
    rewrite Qmult_1_l. rewrite <- Zle_Qle. lia.
Qed.

Lemma top3_value (ranks : list nat) :
  ranks <> [] ->
  top3 ranks = Ok (py_round (top3_fraction ranks) 3).
Proof.
  intros Hne. destruct ranks as [|r t]; [contradiction | reflexivity].
Qed.

Lemma top3_fraction_unit (ranks : list nat) :
  ranks <> [] -> (0 <= top3_fraction ranks <= 1)%Q.
Proof.
  intros Hne. unfold top3_fraction. apply fraction_unit.
  - apply filter_length_le.
  - destruct ranks; [contradiction | simpl; lia].
Qed.

(** X7. For a non-empty test set, Top-3 Percentage lies between 0 and 1;
    it is 1 when every rank is at most 3 and 0 when none is. *)
Theorem top3_unit_interval (ranks : list nat) :
  ranks <> [] ->
  exists t : Q,
    top3 ranks = Ok t /\ (0 <= t <= 1)%Q /\
    (Forall (fun r => r <= 3) ranks -> (t == 1)%Q) /\
    (Forall (fun r => 3 < r) ranks -> (t == 0)%Q).
Proof.
  intros Hne. exists (py_round (top3_fraction ranks) 3).
  split; [now apply top3_value|].
  split; [apply py_round_unit; now apply top3_fraction_unit|].
  assert (Hn : (0 < inject_Z (Z.of_nat (length ranks)))%Q).
  { change 0%Q with (inject_Z 0). rewrite <- Zlt_Qlt.
    destruct ranks; [contradiction | simpl; lia]. }
  unfold py_round. change (10 ^ Z.of_nat 3)%Z with 1000%Z. split.
  - intros Hall.
    assert (Hx : (top3_fraction ranks == 1)%Q).
    { unfold top3_fraction. rewrite filter_all.
      - apply Qmult_inv_r. lra.
      - eapply Forall_impl; [|exact Hall]. intros r Hr. now apply Nat.leb_le. }
    rewrite (round_half_even_integer _ 1000); [reflexivity|].
    rewrite Hx. reflexivity.
  - intros Hall.
    assert (Hx : (top3_fraction ranks == 0)%Q).
    { unfold top3_fraction. rewrite filter_none.
      - simpl. unfold Qdiv. apply Qmult_0_l.
      - eapply Forall_impl; [|exact Hall]. intros r Hr.
        apply Nat.leb_gt. exact Hr. }
    rewrite (round_half_even_integer _ 0); [reflexivity|].
    rewrite Hx. reflexivity.
Qed.

Lemma sum_ranks_Permutation (l l' : list nat) :
  Permutation l l' -> sum_ranks l = sum_ranks l'.
Proof.
  induction 1 as [|x l l' _ IH|x y l|l l' l'' _ IH1 _ IH2]; simpl; lia.
Qed.

(** X8. The two metrics do not depend on the order of the test questions:
    permuting the ranks leaves Average Rank and Top-3 Percentage
    unchanged. *)
Theorem metrics_ignore_question_order (ranks ranks' : list nat) :
  Permutation ranks ranks' ->
  AR ranks = AR ranks' /\ top3 ranks = top3 ranks'.
Proof.
  intros Hp.
  pose proof (Permutation_length Hp) as Hlen.
  pose proof (sum_ranks_Permutation _ _ Hp) as Hsum.
  pose proof (Permutation_filter_length (fun r => r <=? 3) _ _ Hp) as Hcnt.
  split.
  - unfold AR, Series_mean.
    destruct ranks as [|r t], ranks' as [|r' t']; try discriminate;
      [reflexivity|].
    now rewrite Hsum, Hlen.
  - unfold top3, query_rank_le. now rewrite Hcnt, Hlen.
Qed.

(** ** The evaluation of cell 11 *)

Section EvaluateFacts.
Context {sorter : ArgSort}.

Lemma rank_rows_range (uniq : list Z) (scores : matrix) (answers : list Z)
  (sorted : list (list Z)) (ranks : list nat) :
  length scores = length answers ->
  length sorted = length answers -> length ranks = length answers ->
  (forall i row a srt r,
      nth_error scores i = Some row -> nth_error answers i = Some a ->
      nth_error sorted i = Some srt -> nth_error ranks i = Some r ->
      is_rank_of uniq row a srt r) ->
  Forall (fun r => 1 <= r <= length uniq) ranks.
Proof.
  intros Hl1 Hl2 Hl3 Hall. apply Forall_forall. intros r Hin.
  apply In_nth_error in Hin as [i Hi].
  assert (Hi' : i < length ranks) by (apply nth_error_Some; congruence).
  destruct (nth_error scores i) as [row|] eqn:E1;
    [|apply nth_error_None in E1; lia].
  destruct (nth_error answers i) as [a|] eqn:E2;
    [|apply nth_error_None in E2; lia].
  destruct (nth_error sorted i) as [srt|] eqn:E3;
    [|apply nth_error_None in E3; lia].
  destruct (Hall i row a srt r E1 E2 E3 Hi) as (_ & _ & _ & _ & Hb & _).
  exact Hb.
Qed.

(** X9. Cell 11 reports no metrics for an empty test frame: the
    evaluation raises, and with an empty score matrix the error is the
    [ZeroDivisionError] of Top-3 Percentage. *)
Theorem evaluate_empty_test_set (f : frame) (scores : matrix) (uniq : list Z) :
  len f = 0 ->
  (exists e, evaluate f scores uniq = Raise e) /\
  (scores = [] -> evaluate f scores uniq = Raise ZeroDivisionError).
Proof.
  intros Hlen. unfold len in Hlen. apply length_zero_iff_nil in Hlen.
  assert (Hok : forall f', rank f scores uniq = Ok f' ->
                  evaluate f scores uniq = Raise ZeroDivisionError).
  { intros f' Hr. unfold evaluate. rewrite Hr. simpl.
    destruct (rank_inv _ _ _ _ Hr) as (sorted & ranks & -> & _ & _ & Hm).
    rewrite Hlen, combine_nil in Hm. simpl in Hm. injection Hm as <-.
    reflexivity. }
  split.
  - destruct (rank f scores uniq) as [f'|e] eqn:Hr; [eauto|].
    exists e. unfold evaluate. now rewrite Hr.
  - intros ->. apply (Hok {| AnswerId := AnswerId f;
                             SortedAnswers := Some [];
                             Rank := Some [] |}).
    unfold rank, len. rewrite Hlen. reflexivity.
Qed.

(** X10. For a non-empty test frame with one score row per question, one
    score per class and every answer id among the distinct classes, cell
    11 returns both metrics: Average Rank is an integer between 1 and the
    number of classes, and Top-3 Percentage lies between 0 and 1. *)
Theorem evaluate_metric_ranges (f : frame) (scores : matrix) (uniq : list Z) :
  NoDup uniq ->
  length scores = len f ->
  Forall (fun row => length row = length uniq) scores ->
  Forall (fun a => In a uniq) (AnswerId f) ->
  0 < len f ->
  exists f' k t,
    evaluate f scores uniq = Ok (f', Some (inject_Z k), t) /\
    AnswerId f' = AnswerId f /\
    (1 <= k <= Z.of_nat (length uniq))%Z /\ (0 <= t <= 1)%Q.
Proof.
  intros Hnd Hlen Hrows Hans Hpos.
  destruct (rank_rows uniq scores (AnswerId f) Hnd Hlen Hrows Hans)
    as (sorted & ranks & Hs & Hr & Hls & Hlr & Hall).
  pose proof (rank_rows_range uniq scores (AnswerId f) sorted ranks
                Hlen Hls Hlr Hall) as Hrange.
  assert (Hne : ranks <> []).
  { intros ->. unfold len in Hpos. simpl in Hlr. lia. }
  eexists _, (sum_ranks ranks / Z.of_nat (length ranks))%Z,
          (py_round (top3_fraction ranks) 3).
  split; [|split; [|split]].
  - unfold evaluate. rewrite (rank_agree f scores uniq sorted Hs Hls).
    unfold len in *. rewrite Hr. simpl.
    rewrite (top3_value ranks Hne). simpl.
    rewrite (AR_value ranks Hne). reflexivity.
  - reflexivity.
  - apply (AR_quotient_bounds ranks 1 (length uniq) Hne Hrange).
  - apply py_round_unit. now apply top3_fraction_unit.
Qed.

End EvaluateFacts.

(** ** The ensemble: order and range of the mean *)

Lemma ensemble_entries (P1 P2 P3 : matrix) (n c : nat) :
  has_shape n c P1 = true ->
  has_shape n c P2 = true ->
  has_shape n c P3 = true ->
  exists E,
    Y_test_prob_aggr P1 P2 P3 = Ok E /\
    has_shape n c E = true /\
    forall q j, q < n -> j < c ->
      entry E q j = ((entry P1 q j + entry P2 q j + entry P3 q j) / 3)%Q.
Proof.
  intros H1 H2 H3.
  pose proof (mat_add_shape n c _ _ H1 H2) as H12.
  pose proof (mat_add_shape n c _ _ H12 H3) as H123.
  exists (map (map (fun s => s / 3)%Q) (mat_add (mat_add P1 P2) P3)).
  split; [|split].
  - unfold Y_test_prob_aggr, np_mean_axis0.
    assert (Hn : length P1 = n) by (now apply has_shape_spec in H1).
    assert (Hall : forallb (has_shape (length P1) (ncols P1)) [P1; P2; P3]
                   = true).
    { destruct P1 as [|r1 t1].
      - simpl in Hn. subst n.
        apply has_shape_spec in H2 as [H2 _]. apply has_shape_spec in H3 as [H3 _].
        destruct P2; [|discriminate]. destruct P3; [|discriminate]. reflexivity.
      - assert (ncols (r1 :: t1) = c) as ->.
        { apply has_shape_spec in H1 as [_ Hr]. now inversion Hr. }
        rewrite Hn. simpl. now rewrite H1, H2, H3. }
    rewrite Hall. reflexivity.
  - apply has_shape_spec in H123 as [Hl Hr]. apply has_shape_spec.
    split; [now rewrite length_map|].
    apply Forall_map. eapply Forall_impl; [|exact Hr].
    intros row Hrw. now rewrite length_map.
  - intros q j Hq Hj. unfold entry.
    pose proof (row_of_length n c P1 q H1 Hq) as L1.
    pose proof (row_of_length n c P2 q H2 Hq) as L2.
    pose proof (row_of_length n c P3 q H3 Hq) as L3.
    assert (Hrow : row_of (map (map (fun s => s / 3)%Q)
                               (mat_add (mat_add P1 P2) P3)) q
                   = map (fun s => s / 3)%Q
                       (map2 Qplus (map2 Qplus (row_of P1 q) (row_of P2 q))
                                   (row_of P3 q))).
    { unfold row_of at 1.
      rewrite nth_map_in with (d' := @nil Q)
        by (apply has_shape_spec in H123 as [-> _]; exact Hq).
      fold (row_of (mat_add (mat_add P1 P2) P3) q).
      rewrite (mat_add_row n c), (mat_add_row n c); auto. }
    rewrite Hrow.
    rewrite nth_map_in with (d' := (0 + 0)%Q)
      by (rewrite !length_map2; lia).
    rewrite (nth_map2 _ _ _ _ (0 + 0)%Q 0%Q) by (rewrite ?length_map2; lia).
    rewrite (nth_map2 _ _ _ _ 0%Q 0%Q) by lia.
    reflexivity.
Qed.

(** X11. The ensemble keeps an order on which the three classifiers agree:
    when each of them scores class [a] at most as high as class [b] for a
    question, so does the ensemble. *)
Theorem ensemble_keeps_unanimous_order (P1 P2 P3 : matrix) (n c q a b : nat) :
  has_shape n c P1 = true ->
  has_shape n c P2 = true ->
  has_shape n c P3 = true ->
  q < n -> a < c -> b < c ->
  (entry P1 q a <= entry P1 q b)%Q ->
  (entry P2 q a <= entry P2 q b)%Q ->
  (entry P3 q a <= entry P3 q b)%Q ->
  exists E,
    Y_test_prob_aggr P1 P2 P3 = Ok E /\
    (entry E q a <= entry E q b)%Q.
Proof.
  intros H1 H2 H3 Hq Ha Hb L1 L2 L3.
  destruct (ensemble_entries P1 P2 P3 n c H1 H2 H3) as (E & HE & _ & Hent).
  exists E. split; [exact HE|].
  rewrite (Hent q a Hq Ha), (Hent q b Hq Hb).
  unfold Qdiv. change (/ 3)%Q with (1 # 3)%Q. lra.
Qed.

(** X12. The ensemble of scores between 0 and 1 has its entries between 0
    and 1. *)
Theorem ensemble_within_bounds (P1 P2 P3 : matrix) (n c : nat) :
  has_shape n c P1 = true ->
  has_shape n c P2 = true ->
  has_shape n c P3 = true ->
  (forall q j, q < n -> j < c ->
     (0 <= entry P1 q j <= 1)%Q /\ (0 <= entry P2 q j <= 1)%Q /\
     (0 <= entry P3 q j <= 1)%Q) ->
  exists E,
    Y_test_prob_aggr P1 P2 P3 = Ok E /\
    forall q j, q < n -> j < c -> (0 <= entry E q j <= 1)%Q.
Proof.
  intros H1 H2 H3 Hb.
  destruct (ensemble_entries P1 P2 P3 n c H1 H2 H3) as (E & HE & _ & Hent).
  exists E. split; [exact HE|]. intros q j Hq Hj.
  rewrite (Hent q j Hq Hj). destruct (Hb q j Hq Hj) as (B1 & B2 & B3).
  unfold Qdiv. change (/ 3)%Q with (1 # 3)%Q. lra.
Qed.

(** ** TF-IDF and the vocabulary of the Naive Bayes scorer *)

Lemma col_of_nth (M : matrix) (j q : nat) :
  q < length M -> nth q (col_of M j) 0%Q = entry M q j.
Proof.
  intros Hq. unfold col_of, entry, row_of.
  now rewrite nth_map_in with (d' := @nil Q).
Qed.

Lemma transpose_entry (r c : nat) (M : matrix) (i j : nat) :
  0 < r -> has_shape r c M = true -> i < c -> j < r ->
  entry (transpose M) i j = entry M j i.
Proof.
  intros Hr H Hi Hj. unfold entry at 1.
  rewrite (transpose_row r c M i Hr H Hi).
  apply col_of_nth. apply has_shape_spec in H as [-> _]. exact Hj.
Qed.

Lemma broadcast_mul_shape (X : matrix) (w : vector) (r c : nat) :
  has_shape r c X = true -> length w = c ->
  broadcast_mul X w = Ok (map (fun row => map2 Qmult row w) X) /\
  has_shape r c (map (fun row => map2 Qmult row w) X) = true.
Proof.
  intros H Hw. apply has_shape_spec in H as [Hl HF]. split.
  - apply broadcast_mul_ok. eapply Forall_impl; [|exact HF].
    intros row Hrow. simpl in Hrow. congruence.
  - apply has_shape_spec. split; [now rewrite length_map|].
    apply Forall_map. eapply Forall_impl; [|exact HF].
    intros row Hrow. simpl in Hrow. rewrite length_map2. lia.
Qed.

(** X13. For a term-frequency matrix with at least one token and one
    question and an [idf] vector with one weight per token, the TF-IDF
    matrix of cell 3 has the shape of the term-frequency matrix and its
    entry for token [w] and question [q] is the term frequency times the
    weight of [w]. *)
Theorem tfidf_entries (x_w : matrix) (idf : vector) (nTokens nQ : nat) :
  0 < nTokens -> 0 < nQ ->
  has_shape nTokens nQ x_w = true ->
  length idf = nTokens ->
  exists M,
    tfidf x_w idf = Ok M /\
    has_shape nTokens nQ M = true /\
    forall w q, w < nTokens -> q < nQ ->
      entry M w q = (entry x_w w q * nth w idf 0)%Q.
Proof.
  intros HT HQ Hx Hidf.
  pose proof (transpose_shape _ _ _ HT Hx) as HxT.
  destruct (broadcast_mul_shape (transpose x_w) idf nQ nTokens HxT Hidf)
    as [Hmul Hshape].
  set (M1 := map (fun row => map2 Qmult row idf) (transpose x_w)) in *.
  exists (transpose M1). unfold tfidf. rewrite Hmul. simpl.
  split; [reflexivity|].
  split; [now apply (transpose_shape nQ nTokens)|].
  intros w q Hw Hq.
  rewrite (transpose_entry nQ nTokens M1 w q HQ Hshape Hw Hq).
  unfold entry, row_of, M1.
  rewrite nth_map_in with (d' := @nil Q)
    by (apply has_shape_spec in HxT as [-> _]; exact Hq).
  fold (row_of (transpose x_w) q).
  rewrite (transpose_row _ _ _ q HT Hx Hq).
  rewrite (nth_map2 _ _ _ _ 0%Q 0%Q).
  - rewrite col_of_nth; [reflexivity|].
    apply has_shape_spec in Hx as [-> _]. exact Hw.
  - unfold col_of. rewrite length_map.
    apply has_shape_spec in Hx as [-> _]. exact Hw.
  - lia.
Qed.

(** X14. For a term-frequency matrix with at least one token and at
    least one question: when the [idf] vector does not have one weight per
    token, and neither it nor the vocabulary has exactly one entry (the
    case NumPy broadcasts), cell 3 raises [ValueError]. *)
Theorem tfidf_weight_count_mismatch (x_w : matrix) (idf : vector)
  (nTokens nQ : nat) :
  0 < nTokens -> 0 < nQ ->
  has_shape nTokens nQ x_w = true ->
  length idf <> nTokens -> length idf <> 1 -> nTokens <> 1 ->
  tfidf x_w idf = Raise ValueError.
Proof.
  intros HT HQ Hx Hne Hi1 HT1. unfold tfidf, broadcast_mul, transpose.
  rewrite (ncols_shape _ _ _ HT Hx).
  destruct nQ as [|m]; [lia|]. simpl seq. simpl map. simpl mapM.
  assert (Hrow : broadcast_row (col_of x_w 0) idf = Raise ValueError).
  { unfold broadcast_row.
    assert (Hl : length (col_of x_w 0) = nTokens).
    { unfold col_of. rewrite length_map. now apply has_shape_spec in Hx. }
    rewrite Hl.
    destruct (Nat.eqb_spec nTokens (length idf)) as [E|_]; [congruence|].
    destruct idf as [|c [|c' t]]; destruct (col_of x_w 0) as [|d [|d' u]];
      simpl in *; try reflexivity; congruence. }
  rewrite Hrow. reflexivity.
Qed.

(** X15. For a test term-frequency matrix with at least one token and at
    least one test question: when the NB weight matrix does not have one
    row per token of it, the Naive Bayes scorer raises [ValueError]: the
    vocabulary of the features and of the weights must be the same. *)
Theorem Y_test_prob1_vocabulary_mismatch (softmax : matrix -> matrix)
  (x_wTest NBWeights : matrix) (nTokens nTest : nat) :
  0 < nTokens -> 0 < nTest ->
  has_shape nTokens nTest x_wTest = true ->
  length NBWeights <> nTokens ->
  Y_test_prob1 softmax x_wTest NBWeights = Raise ValueError.
Proof.
  intros HT HQ Hx Hne. unfold Y_test_prob1, np_dot, transpose.
  rewrite (ncols_shape _ _ _ HT Hx).
  destruct nTest as [|m]; [lia|]. simpl seq. simpl map. simpl forallb.
  assert (Hl : length (col_of x_wTest 0) = nTokens).
  { unfold col_of. rewrite length_map. now apply has_shape_spec in Hx. }
  rewrite Hl.
  destruct (Nat.eqb_spec nTokens (length NBWeights)) as [E|_]; [congruence|].
  reflexivity.
Qed.

(** ** Positive and negative examples of a class *)

Lemma where_eq_from_partition (v : list Z) (i : nat) :
  Forall (fun b => b = 0%Z \/ b = 1%Z) v ->
  Permutation (where_eq_from 1 v i ++ where_eq_from 0 v i)
              (seq i (length v)).
Proof.
  intros H. revert i. induction H as [|y t Hy _ IH]; intros i; simpl.
  - constructor.
  - destruct Hy as [-> | ->]; simpl.
    + apply Permutation_sym, Permutation_cons_app, Permutation_sym, IH.
    + apply perm_skip, IH.
Qed.

Lemma posIdx_negPool_count (labels : list Z) (c : Z) :
  length (posIdx (binary_labels labels c)) = count_occ Z.eq_dec labels c.
Proof.
  unfold posIdx, where_eq, binary_labels. generalize 0.
  induction labels as [|l t IH]; intros i; simpl; [reflexivity|].
  destruct (Z.eqb_spec l c) as [->|Hne]; simpl.
  - destruct (Z.eq_dec c c); [|contradiction]. now rewrite IH.
  - destruct (Z.eq_dec l c); [contradiction|]. apply IH.
Qed.

(** X16. In the indicator column of a class every training question is
    either a positive example or a candidate negative example, never both
    and never twice: [posIdx] followed by the negative candidates is a
    rearrangement of all the positions. *)
Theorem posIdx_negPool_partition (labels : list Z) (c : Z) :
  Permutation (posIdx (binary_labels labels c)
               ++ negPool (binary_labels labels c))
              (seq 0 (length labels)) /\
  length (posIdx (binary_labels labels c)) = count_occ Z.eq_dec labels c.
Proof.
  split.
  - unfold posIdx, negPool, where_eq.
    rewrite <- (length_map (fun l => if (l =? c)%Z then 1%Z else 0%Z) labels).
    apply where_eq_from_partition. apply binary_labels_values.
  - apply posIdx_negPool_count.
Qed.

(** X17. The indicator columns of [get_dummies] are one-hot: every
    training question is a positive example of exactly one class, the
    class of its own label. *)
Theorem get_dummies_one_hot (labels : list Z) (q : nat) (l : Z) :
  nth_error labels q = Some l ->
  exists i,
    i < length (uniqueLabel labels) /\
    nth_error (uniqueLabel labels) i = Some l /\
    (forall j col, getitem (get_dummies labels) j = Ok col ->
       (In q (posIdx col) <-> j = i)).
Proof.
  intros Hq. unfold uniqueLabel.
  assert (Hin : In l (np_unique labels)).
  { apply np_unique_In. eapply nth_error_In; eauto. }
  apply In_nth_error in Hin as [i Hi]. exists i.
  assert (Hlt : i < length (np_unique labels))
    by (apply nth_error_Some; congruence).
  split; [exact Hlt|]. split; [exact Hi|].
  intros j col Hcol.
  assert (Hj : j < length (np_unique labels)).
  { apply getitem_inv in Hcol.
    assert (j < length (get_dummies labels)) by (apply nth_error_Some; congruence).
    unfold get_dummies in *. now rewrite length_map in *. }
  rewrite (get_dummies_column labels j Hj) in Hcol. injection Hcol as <-.
  unfold posIdx. rewrite where_eq_In, binary_labels_nth. split.
  - intros (l' & Hl' & Hone). rewrite Hq in Hl'. injection Hl' as <-.
    destruct (Z.eqb_spec l (nth j (np_unique labels) 0%Z)) as [E|]; [|discriminate].
    pose proof (np_unique_NoDup labels) as Hnd.
    rewrite NoDup_nth_error in Hnd. apply Hnd; [exact Hj|].
    rewrite Hi, E. now apply nth_error_nth'.
  - intros ->. exists l. split; [exact Hq|].
    rewrite (nth_error_nth _ _ 0%Z Hi). now rewrite Z.eqb_refl.
Qed.

Lemma map_constant {A B : Type} (f : A -> B) (v : B) (l : list A) :
  Forall (fun a => f a = v) l -> map f l = repeat v (length l).
Proof.
  induction 1 as [|a t Ha _ IH]; simpl; [reflexivity|]. now rewrite Ha, IH.
Qed.


(** ** The one-vs-rest classifier: the generator, errors and shape *)

Lemma ovr_class_unsampled (clf : Classifier) (dummyLabels : list (list Z))
  (x_wTrain x_wTest NBWeights : matrix) (numTest i : nat)
  (g1 g2 : RandomState) :
  ovr_class clf dummyLabels x_wTrain x_wTest NBWeights None numTest i g1
  = with_state g1
      (ovr_class clf dummyLabels x_wTrain x_wTest NBWeights None numTest i g2).
Proof.
  unfold ovr_class.
  destruct (column NBWeights i) as [w|e]; simpl; [|reflexivity].
  destruct (broadcast_mul (transpose x_wTrain) w) as [X|e]; simpl; [|reflexivity].
  destruct (getitem dummyLabels i) as [Y|e]; simpl; [|reflexivity].
  destruct (broadcast_mul (transpose x_wTest) w) as [Xt|e]; simpl; [|reflexivity].
  destruct (test_scores clf (fit clf X Y) Xt) as [sc|e]; simpl; [|reflexivity].
  destruct (assign_column numTest sc) as [col|e]; reflexivity.
Qed.

Lemma ovr_loop_unsampled (clf : Classifier) (dummyLabels : list (list Z))
  (x_wTrain x_wTest NBWeights : matrix) (numTest : nat) (classes : list nat)
  (g1 g2 : RandomState) :
  ovr_loop clf dummyLabels x_wTrain x_wTest NBWeights None numTest classes g1
  = with_state g1
      (ovr_loop clf dummyLabels x_wTrain x_wTest NBWeights None numTest
                classes g2).
Proof.
  revert g1 g2. induction classes as [|i rest IH]; intros g1 g2; simpl;
    [reflexivity|].
  rewrite (ovr_class_unsampled clf dummyLabels x_wTrain x_wTest NBWeights
             numTest i g1 g2).
  destruct (ovr_class clf dummyLabels x_wTrain x_wTest NBWeights None
              numTest i g2) as [[col g']|e]; simpl; [|reflexivity].
  rewrite (IH g1 g').
  destruct (ovr_loop clf dummyLabels x_wTrain x_wTest NBWeights None
              numTest rest g') as [[cols g'']|e]; reflexivity.
Qed.

(** X19. Without sample selection ([ratio] is [None]) [ovrClassifier]
    draws no random number: it leaves the generator as it found it, and
    its scores, or its error, are the same from every generator state. *)
Theorem ovrClassifier_unsampled_ignores_generator (softmax : matrix -> matrix)
  (trainLabels : list Z) (x_wTrain x_wTest NBWeights : matrix)
  (clf : Classifier) (g1 g2 : RandomState) :
  ovrClassifier softmax trainLabels x_wTrain x_wTest NBWeights clf None g1
  = with_state g1
      (ovrClassifier softmax trainLabels x_wTrain x_wTest NBWeights clf
                     None g2).
Proof.
  unfold ovrClassifier, ovr_scores.
  rewrite (ovr_loop_unsampled clf (get_dummies trainLabels) x_wTrain x_wTest
             NBWeights (ncols x_wTest)
             (seq 0 (length (uniqueLabel trainLabels))) g1 g2).
  destruct (ovr_loop clf (get_dummies trainLabels) x_wTrain x_wTest NBWeights
              None (ncols x_wTest) (seq 0 (length (uniqueLabel trainLabels)))
              g2) as [[cols g']|e]; reflexivity.
Qed.

Lemma single_class_no_negative (labels : list Z) (c : Z) :
  np_unique labels = [c] -> negPool (binary_labels labels c) = [].
Proof.
  intros Hu. destruct (negPool (binary_labels labels c)) as [|q t] eqn:E;
    [reflexivity|].
  assert (Hq : In q (negPool (binary_labels labels c))) by (rewrite E; now left).
  apply where_eq_In, binary_labels_nth in Hq as (l & Hl & Hzero).
  assert (Hin : In l (np_unique labels)).
  { apply np_unique_In. eapply nth_error_In; eauto. }
  rewrite Hu in Hin. destruct Hin as [<-|[]].
  rewrite Z.eqb_refl in Hzero. discriminate.
Qed.

(** X20. With a single class among the training labels, subsampling with
    a ratio above 0 makes [ovrClassifier] raise [ValueError]: the class has
    no negative example to draw from. *)
Theorem ovrClassifier_single_class_raises (softmax : matrix -> matrix)
  (clf : Classifier) (labels : list Z) (c : Z)
  (x_wTrain x_wTest NBWeights : matrix) (ratio : nat) (g : RandomState)
  (nTokens nTest : nat) :
  np_unique labels = [c] ->
  0 < ratio ->
  0 < nTokens ->
  has_shape nTokens (length labels) x_wTrain = true ->
  has_shape nTokens nTest x_wTest = true ->
  has_shape nTokens 1 NBWeights = true ->
  ovrClassifier softmax labels x_wTrain x_wTest NBWeights clf (Some ratio) g
  = Raise ValueError.
Proof.
  intros Hu Hr HT Htr Hte HW.
  unfold ovrClassifier, ovr_scores, uniqueLabel. rewrite Hu. simpl seq.
  simpl ovr_loop. unfold ovr_class.
  rewrite column_ok.
  2:{ apply has_shape_spec in HW as [_ HF].
      eapply Forall_impl; [|exact HF]. intros row ->. lia. }
  simpl.
  destruct (features_ok x_wTrain NBWeights _ _ _ 0 HT Htr HW) as [-> _].
  simpl. rewrite (get_dummies_column labels 0) by (rewrite Hu; simpl; lia).
  simpl.
  destruct (features_ok x_wTest NBWeights _ _ _ 0 HT Hte HW) as [-> _].
  simpl. rewrite Hu. simpl nth.
  unfold negIdx. rewrite (single_class_no_negative labels c Hu).
  rewrite random_choice_empty; [reflexivity|].
  assert (Hc : In c labels) by (apply np_unique_In; rewrite Hu; now left).
  pose proof (posIdx_nonempty labels c Hc) as Hpos.
  destruct (posIdx (binary_labels labels c)); [contradiction|]. simpl. lia.
Qed.

Lemma np_unique_ones (p : nat) : np_unique (repeat 1%Z (S p)) = [1%Z].
Proof.
  induction p as [|p IH]; [reflexivity|].
  change (repeat 1%Z (S (S p))) with (1%Z :: repeat 1%Z (S p)).
  simpl np_unique. simpl in IH. rewrite IH. reflexivity.
Qed.

(** X21. With [ratio = 0] no negative example is drawn and the estimator
    is fitted on the positive examples alone.  An estimator without
    [decision_function] then reports a single probability column, and
    [ovrClassifier] raises [IndexError] on column 1 as soon as there is a
    test question. *)
Theorem ovrClassifier_ratio_zero_raises (softmax : matrix -> matrix)
  (clf : Classifier) (labels : list Z)
  (x_wTrain x_wTest NBWeights : matrix) (g : RandomState)
  (nTokens nTest : nat) :
  decision_function clf = None ->
  labels <> [] -> 0 < nTest ->
  0 < nTokens ->
  has_shape nTokens (length labels) x_wTrain = true ->
  has_shape nTokens nTest x_wTest = true ->
  has_shape nTokens (length (np_unique labels)) NBWeights = true ->
  ovrClassifier softmax labels x_wTrain x_wTest NBWeights clf (Some 0) g
  = Raise IndexError.
Proof.
  intros Hdec Hne HnT HT Htr Hte HW.
  assert (HC : 0 < length (np_unique labels)).
  { destruct labels as [|l t]; [contradiction|].
    assert (Hin : In l (np_unique (l :: t))) by (apply np_unique_In; now left).
    destruct (np_unique (l :: t)); [contradiction | simpl; lia]. }
  unfold ovrClassifier, ovr_scores, uniqueLabel.
  destruct (length (np_unique labels)) as [|C] eqn:EC; [lia|].
  simpl seq. simpl ovr_loop. unfold ovr_class.
  rewrite column_ok.
  2:{ apply has_shape_spec in HW as [_ HF].
      eapply Forall_impl; [|exact HF]. intros row ->. lia. }
  simpl.
  destruct (features_ok x_wTrain NBWeights _ _ _ 0 HT Htr HW) as [-> HlX].
  simpl. rewrite (get_dummies_column labels 0) by lia. simpl.
  destruct (features_ok x_wTest NBWeights _ _ _ 0 HT Hte HW) as [-> HlT].
  simpl.
  set (c := nth 0 (np_unique labels) 0%Z).
  set (Y := binary_labels labels c).
  assert (HY : length Y = length labels)
    by (unfold Y, binary_labels; apply length_map).
  assert (Hneg : exists g', negIdx Y 0 g = Ok ([], g')).
  { unfold negIdx, random_choice. simpl.
    destruct (negPool Y); [eauto|]. unfold randint. simpl. eauto. }
  destruct Hneg as [g' ->]. simpl. rewrite app_nil_r.
  rewrite (take_ok _ _ []) by (rewrite HlX, <- HY; apply where_eq_bound).
  simpl. rewrite (take_ok Y _ 0%Z) by apply where_eq_bound. simpl.
  assert (Hc : In c labels).
  { apply np_unique_In. apply nth_In. lia. }
  pose proof (posIdx_nonempty labels c Hc) as Hpos. fold Y in Hpos.
  assert (Hones : map (fun j => nth j Y 0%Z) (posIdx Y)
                  = repeat 1%Z (length (posIdx Y))).
  { apply map_constant. apply Forall_forall. intros q Hq.
    apply where_eq_In in Hq. now apply nth_error_nth. }
  rewrite Hones.
  destruct (length (posIdx Y)) as [|p] eqn:Ep.
  { destruct (posIdx Y); [contradiction | discriminate]. }
  unfold test_scores. rewrite Hdec.
  match goal with
  | |- context [predict_proba clf (fit clf ?X ?y) ?Xt] =>
      pose proof (proba_shape clf X y Xt) as Hp;
      set (P := predict_proba clf (fit clf X y) Xt) in *
  end.
  rewrite np_unique_ones in Hp. apply has_shape_spec in Hp as [Hl HF].
  destruct P as [|row rest]; [simpl in Hl; lia|].
  inversion HF as [|? ? Hrow _]; subst. simpl in Hrow.
  unfold column. simpl mapM.
  rewrite getitem_raise_at by lia. reflexivity.
Qed.

Lemma bind_inv {A B : Type} (m : result A) (k : A -> result B) (b : B) :
  bind m k = Ok b -> exists a, m = Ok a /\ k a = Ok b.
Proof. destruct m as [a|e]; simpl; [eauto | discriminate]. Qed.

Lemma assign_column_length (numTest : nat) (scores col : vector) :
  assign_column numTest scores = Ok col -> length col = numTest.
Proof.
  unfold assign_column.
  destruct (Nat.eqb_spec (length scores) numTest) as [E|_].
  - now intros [= <-].
  - destruct scores as [|c [|c' t]]; try discriminate.
    intros [= <-]. apply repeat_length.
Qed.

Lemma column_inv (M : matrix) (i : nat) (w : vector) :
  column M i = Ok w -> Forall (fun row => i < length row) M.
Proof.
  intros H. apply mapM_inv in H.
  induction H as [|row x t u Hrow _ IH]; constructor; [|exact IH].
  apply getitem_inv in Hrow. apply nth_error_Some. congruence.
Qed.

Lemma ovr_class_inv (clf : Classifier) (dummyLabels : list (list Z))
  (x_wTrain x_wTest NBWeights : matrix) (ratio : option nat)
  (numTest i : nat) (g g' : RandomState) (col : vector) :
  ovr_class clf dummyLabels x_wTrain x_wTest NBWeights ratio numTest i g
    = Ok (col, g') ->
  length col = numTest /\ Forall (fun row => i < length row) NBWeights.
Proof.
  unfold ovr_class. intros H.
  apply bind_inv in H as (w & Hw & H).
  apply bind_inv in H as (X & _ & H).
  apply bind_inv in H as (Y & _ & H).
  apply bind_inv in H as (Xt & _ & H).
  apply bind_inv in H as (tr & _ & H).
  apply bind_inv in H as (sc & _ & H).
  apply bind_inv in H as (c & Hc & H).
  injection H as <- _. split.
  - now apply assign_column_length in Hc.
  - now apply column_inv in Hw.
Qed.

Lemma ovr_loop_inv (clf : Classifier) (dummyLabels : list (list Z))
  (x_wTrain x_wTest NBWeights : matrix) (ratio : option nat)
  (numTest : nat) (classes : list nat) (g g' : RandomState)
  (cols : list vector) :
  ovr_loop clf dummyLabels x_wTrain x_wTest NBWeights ratio numTest classes g
    = Ok (cols, g') ->
  length cols = length classes /\
  Forall (fun col => length col = numTest) cols /\
  Forall (fun i => Forall (fun row => i < length row) NBWeights) classes.
Proof.
  revert g g' cols. induction classes as [|i rest IH]; intros g g' cols; simpl.
  - intros [= <- _]. repeat split; constructor.
  - intros H. apply bind_inv in H as ([col g1] & Hc & H).
    apply bind_inv in H as ([cs g2] & Hl & H). simpl in *.
    injection H as <- _.
    apply ovr_class_inv in Hc as [Hcl HNB].
    destruct (IH _ _ _ Hl) as (IH1 & IH2 & IH3).
    repeat split; simpl; auto.
Qed.

(** X22. Whatever the inputs, when [ovrClassifier] returns, it returns
    [softmax] of a matrix with one row per test question (column of
    [x_wTest]) and one column per distinct training label, and every row of
    the NB weight matrix had a weight for each of these classes. *)
Theorem ovrClassifier_returns_shape (softmax : matrix -> matrix)
  (trainLabels : list Z) (x_wTrain x_wTest NBWeights : matrix)
  (clf : Classifier) (ratio : option nat) (g g' : RandomState) (M : matrix) :
  ovrClassifier softmax trainLabels x_wTrain x_wTest NBWeights clf ratio g
    = Ok (M, g') ->
  exists Y,
    M = softmax Y /\
    has_shape (ncols x_wTest) (length (uniqueLabel trainLabels)) Y = true /\
    Forall (fun row => length (uniqueLabel trainLabels) <= length row)
           NBWeights.
Proof.
  unfold ovrClassifier, ovr_scores. intros H.
  apply bind_inv in H as ([Y g1] & HY & H). simpl in H. injection H as <- _.
  apply bind_inv in HY as ([cols g2] & Hloop & HY). simpl in HY.
  injection HY as <- _.
  apply ovr_loop_inv in Hloop as (Hlen & Hcols & HNB).
  rewrite length_seq in Hlen.
  exists (of_columns (ncols x_wTest) cols). split; [reflexivity|]. split.
  - rewrite <- Hlen. apply of_columns_shape.
  - destruct (length (uniqueLabel trainLabels)) as [|C] eqn:EC.
    + apply Forall_forall. intros; lia.
    + rewrite Forall_forall in HNB. specialize (HNB C).
      eapply Forall_impl; [|apply HNB; apply in_seq; lia].
      intros row Hrow. simpl in Hrow. lia.
Qed.

(** ** The class order and the order of the training questions *)

(** X23. The class order depends on the set of training labels only:
    training sets whose labels are rearrangements of one another get the
    same [uniqueAnswerId], the same classes in [ovrClassifier], and never
    more classes than questions. *)
Theorem class_order_ignores_question_order (labels labels' : list Z) :
  Permutation labels labels' ->
  uniqueAnswerId labels = uniqueAnswerId labels' /\
  uniqueLabel labels = uniqueAnswerId labels' /\
  length (uniqueAnswerId labels) <= length labels'.
Proof.
  intros Hp.
  assert (Heq : np_unique labels = np_unique labels').
  { apply np_unique_members. intros x. split; apply Permutation_in;
      [assumption | now apply Permutation_sym]. }
  split; [exact Heq|]. split; [exact Heq|].
  unfold uniqueAnswerId. rewrite Heq.
  apply NoDup_incl_length; [apply np_unique_NoDup|].
  intros x Hx. now apply np_unique_In.
Qed.

(** ** The whole run *)

Lemma Y_test_prob1_shape (softmax : matrix -> matrix)
  (x_wTest NBWeights : matrix) (nTokens nTest nClasses : nat) :
  0 < nTokens ->
  has_shape nTokens nTest x_wTest = true ->
  has_shape nTokens nClasses NBWeights = true ->
  exists S,
    Y_test_prob1 softmax x_wTest NBWeights = Ok (softmax S) /\
    has_shape nTest nClasses S = true.
Proof.
  intros HT Hx HW.
  pose proof (transpose_shape _ _ _ HT Hx) as HxT.
  pose proof (transpose_shape _ _ _ HT HW) as HWT.
  eexists. split.
  - unfold Y_test_prob1, np_dot.
    assert (Hchk : forallb (fun a => length a =? length NBWeights)
                     (transpose x_wTest) = true).
    { apply forallb_forall. intros a Ha. apply Nat.eqb_eq.
      apply has_shape_spec in HxT as [_ HF]. rewrite Forall_forall in HF.
      rewrite (HF a Ha). apply has_shape_spec in HW as [HlW _]. lia. }
    rewrite Hchk. reflexivity.
  - apply has_shape_spec in HxT as [Hl _]. apply has_shape_spec in HWT as [Hl' _].
    apply has_shape_spec. split; [now rewrite !length_map|].
    apply Forall_map, Forall_map, Forall_forall. intros a _.
    now rewrite !length_map.
Qed.

Lemma ovrClassifier_shape (softmax : matrix -> matrix) (clf : Classifier)
  (labels : list Z) (x_wTrain x_wTest NBWeights : matrix)
  (ratio : option nat) (g : RandomState) (nTokens nTest : nat) :
  0 < nTokens ->
  has_shape nTokens (length labels) x_wTrain = true ->
  has_shape nTokens nTest x_wTest = true ->
  has_shape nTokens (length (np_unique labels)) NBWeights = true ->
  2 <= length (np_unique labels) ->
  ratio <> Some 0 ->
  exists Y g',
    ovrClassifier softmax labels x_wTrain x_wTest NBWeights clf ratio g
      = Ok (softmax Y, g') /\
    has_shape nTest (length (np_unique labels)) Y = true.
Proof.
  intros HT Htr Hte HW H2 Hr.
  destruct (ovr_loop_spec clf labels x_wTrain x_wTest NBWeights ratio
              nTokens nTest HT Htr Hte HW H2 Hr
              (seq 0 (length (np_unique labels))) g)
    as (cols & g' & Hloop & Hall).
  { apply Forall_forall. intros i Hi. apply in_seq in Hi. lia. }
  pose proof (Forall2_length Hall) as Hlen. rewrite length_seq in Hlen.
  exists (of_columns nTest cols), g'. split.
  - unfold ovrClassifier, ovr_scores, uniqueLabel.
    rewrite (ncols_shape _ _ _ HT Hte), Hloop. reflexivity.
  - rewrite Hlen. apply of_columns_shape.
Qed.

(** ** The three scorers, column by column *)

Lemma Y_test_prob1_entries (softmax : matrix -> matrix)
  (x_wTest NBWeights : matrix) (nTokens nTest nClasses : nat) :
  0 < nTokens ->
  has_shape nTokens nTest x_wTest = true ->
  has_shape nTokens nClasses NBWeights = true ->
  exists S,
    Y_test_prob1 softmax x_wTest NBWeights = Ok (softmax S) /\
    has_shape nTest nClasses S = true /\
    forall q j, q < nTest -> j < nClasses ->
      entry S q j = dot_vec (col_of x_wTest q) (col_of NBWeights j).
Proof.
  intros HT Hx HW.
  pose proof (transpose_shape _ _ _ HT Hx) as HxT.
  pose proof (transpose_shape _ _ _ HT HW) as HWT.
  set (S := map (fun a => map (dot_vec a) (transpose NBWeights))
                (transpose x_wTest)).
  exists S.
  assert (HS : has_shape nTest nClasses S = true).
  { apply has_shape_spec in HxT as [Hl _]. apply has_shape_spec in HWT as [Hl' _].
    apply has_shape_spec. unfold S. split; [now rewrite length_map|].
    apply Forall_map, Forall_forall. intros a _. now rewrite length_map. }
  split; [|split; [exact HS|]].
  - unfold Y_test_prob1, np_dot.
    assert (Hchk : forallb (fun a => length a =? length NBWeights)
                     (transpose x_wTest) = true).
    { apply forallb_forall. intros a Ha. apply Nat.eqb_eq.
      apply has_shape_spec in HxT as [_ HF]. rewrite Forall_forall in HF.
      rewrite (HF a Ha). apply has_shape_spec in HW as [HlW _]. lia. }
    rewrite Hchk. simpl. fold S. do 2 f_equal.
    rewrite <- (map_id S) at 2. apply map_ext. intros row.
    rewrite <- (map_id row) at 2. apply map_ext. apply Qplus_opp0_l.
  - intros q j Hq Hj. unfold entry.
    assert (Hrow : row_of S q
                   = map (dot_vec (col_of x_wTest q)) (transpose NBWeights)).
    { unfold row_of, S. apply has_shape_spec in HxT as [Hl _].
      rewrite nth_map_in with (d' := @nil Q) by lia.
      fold (row_of (transpose x_wTest) q).
      now rewrite (transpose_row _ _ _ q HT Hx Hq). }
    rewrite Hrow.
    apply has_shape_spec in HWT as [Hl' _].
    rewrite nth_map_in with (d' := @nil Q) by lia.
    fold (row_of (transpose NBWeights) j).
    now rewrite (transpose_row _ _ _ j HT HW Hj).
Qed.

Lemma ovrClassifier_spec (softmax : matrix -> matrix) (clf : Classifier)
  (labels : list Z) (x_wTrain x_wTest NBWeights : matrix)
  (ratio : option nat) (g : RandomState) (nTokens nTest : nat) :
  0 < nTokens ->
  has_shape nTokens (length labels) x_wTrain = true ->
  has_shape nTokens nTest x_wTest = true ->
  has_shape nTokens (length (np_unique labels)) NBWeights = true ->
  2 <= length (np_unique labels) ->
  ratio <> Some 0 ->
  exists Y g',
    ovrClassifier softmax labels x_wTrain x_wTest NBWeights clf ratio g
      = Ok (softmax Y, g') /\
    has_shape nTest (length (np_unique labels)) Y = true /\
    forall i, i < length (np_unique labels) ->
      ovr_column_spec clf labels x_wTrain x_wTest NBWeights ratio i (col_of Y i).
Proof.
  intros HT Htr Hte HW H2 Hr.
  destruct (ovr_loop_spec clf labels x_wTrain x_wTest NBWeights ratio
              nTokens nTest HT Htr Hte HW H2 Hr
              (seq 0 (length (np_unique labels))) g)
    as (cols & g' & Hloop & Hall).
  { apply Forall_forall. intros i Hi. apply in_seq in Hi. lia. }
  destruct (Forall2_seq_nth _ _ _ _ [] Hall) as [Hlen Hnth].
  exists (of_columns nTest cols), g'.
  split; [|split].
  - unfold ovrClassifier, ovr_scores, uniqueLabel.
    rewrite (ncols_shape _ _ _ HT Hte), Hloop. reflexivity.
  - rewrite <- Hlen. apply of_columns_shape.
  - intros i Hi. destruct (Hnth i Hi) as [Hl Hs].
    rewrite col_of_of_columns; [exact Hs | | exact Hl].
    unfold vector in *. congruence.
Qed.

(** ** The linear SVM (cell 6) *)

Lemma np_unique_nonempty (y : list Z) :
  0 < length (np_unique y) -> 0 < length y.
Proof. destruct y; simpl; lia. Qed.

Lemma svc_fit_ok (svc : LinearSVC) (X : matrix) (y : list Z) (n d : nat) :
  0 < n -> 0 < d -> has_shape n d X = true -> length y = n ->
  3 <= length (np_unique y) ->
  svc_fit svc X y
  = Ok {| classes_ := np_unique y; n_features_in_ := d;
          coef_ := map (fun k => svc_solve svc k X
                                   (binary_labels y (nth k (np_unique y) 0%Z)))
                       (seq 0 (length (np_unique y))) |}.
Proof.
  intros Hn Hd HX Hy H3. unfold svc_fit.
  rewrite (ncols_shape n d X Hn HX).
  apply has_shape_spec in HX as [Hl _].
  replace (length X =? 0) with false by (symmetry; apply Nat.eqb_neq; lia).
  replace (d =? 0) with false by (symmetry; apply Nat.eqb_neq; lia).
  replace (length X =? length y) with true by (symmetry; apply Nat.eqb_eq; lia).
  simpl.
  destruct (np_unique y) as [|a [|b [|c l]]]; simpl in H3; try lia.
  reflexivity.
Qed.

Lemma svc_fit_classes (svc : LinearSVC) (X : matrix) (y : list Z)
  (m : svc_fitted svc) :
  svc_fit svc X y = Ok m ->
  classes_ m = np_unique y /\ n_features_in_ m = ncols X.
Proof.
  unfold svc_fit.
  destruct ((length X =? 0) || (ncols X =? 0) || negb (length X =? length y));
    [discriminate|].
  destruct (np_unique y) as [|a [|b [|c l]]]; intros H;
    inversion H; subst; simpl; auto.
Qed.

Lemma svc_decision_ok (svc : LinearSVC) (m : svc_fitted svc) (Xt : matrix)
  (n : nat) :
  0 < n -> has_shape n (n_features_in_ m) Xt = true ->
  2 <= length (coef_ m) ->
  svc_decision_function svc m Xt
  = Ok (Array2 (map (fun x => map (fun p => svc_value svc p x) (coef_ m)) Xt)).
Proof.
  intros Hn HX H2. unfold svc_decision_function.
  apply has_shape_spec in HX as [Hl HF].
  replace (length Xt =? 0) with false by (symmetry; apply Nat.eqb_neq; lia).
  replace (forallb (fun x => length x =? n_features_in_ m) Xt) with true.
  2:{ symmetry. apply forallb_forall. intros x Hx. apply Nat.eqb_eq.
      rewrite Forall_forall in HF. now apply HF. }
  simpl. destruct (coef_ m) as [|p [|p' l]]; simpl in H2; try lia.
  reflexivity.
Qed.

(** With at least three classes the SVM scores are [softmax] of a
    questions-by-classes matrix whose column [j] holds the decision values
    of the problem solved for class [j] of the sorted labels against the
    rest. *)
Lemma Y_test_prob2_ok (softmax : matrix -> matrix) (svc : LinearSVC)
  (tfidfTrain tfidfTest : matrix) (labels : list Z)
  (nFeatures nTest : nat) :
  0 < nFeatures -> 0 < nTest ->
  has_shape nFeatures (length labels) tfidfTrain = true ->
  has_shape nFeatures nTest tfidfTest = true ->
  3 <= length (np_unique labels) ->
  exists S,
    Y_test_prob2 softmax svc tfidfTrain tfidfTest labels = Ok (softmax S) /\
    has_shape nTest (length (np_unique labels)) S = true /\
    forall j, j < length (np_unique labels) ->
      col_of S j
      = map (svc_value svc
               (svc_solve svc j (transpose tfidfTrain)
                  (binary_labels labels (nth j (np_unique labels) 0%Z))))
            (transpose tfidfTest).
Proof.
  intros HF HT Htr Hte H3.
  assert (Hn : 0 < length labels) by (apply np_unique_nonempty; lia).
  pose proof (transpose_shape _ _ _ HF Htr) as HtrT.
  pose proof (transpose_shape _ _ _ HF Hte) as HteT.
  set (ps := map (fun k => svc_solve svc k (transpose tfidfTrain)
                             (binary_labels labels (nth k (np_unique labels) 0%Z)))
                 (seq 0 (length (np_unique labels)))).
  assert (Hps : length ps = length (np_unique labels)).
  { unfold ps. now rewrite length_map, length_seq. }
  exists (map (fun x => map (fun p => svc_value svc p x) ps) (transpose tfidfTest)).
  split; [|split].
  - unfold Y_test_prob2.
    rewrite (svc_fit_ok svc _ labels (length labels) nFeatures Hn HF HtrT
               eq_refl H3).
    cbv beta iota delta [bind].
    rewrite (svc_decision_ok svc _ (transpose tfidfTest) nTest HT);
      [reflexivity | exact HteT |].
    cbv beta iota delta [coef_]. rewrite length_map, length_seq. lia.
  - apply has_shape_spec in HteT as [Hl _]. apply has_shape_spec.
    split; [now rewrite length_map|].
    apply Forall_map, Forall_forall. intros x _. now rewrite length_map.
  - intros j Hj. unfold col_of. rewrite map_map. apply map_ext. intros x.
    rewrite nth_map_in with (d' := svc_solve svc 0 [] []) by lia.
    unfold ps. now rewrite nth_map_seq.
Qed.

(** * The class order across the cells *)

Section ClassOrder.
Context {sorter : ArgSort}.
Variable softmax : matrix -> matrix.
Hypothesis softmax_shape :
  forall M r c, has_shape r c M = true -> has_shape r c (softmax M) = true.


End ClassOrder.


(** ** The whole run *)

Section NotebookRun.
Context {sorter : ArgSort}.
Variable softmax : matrix -> matrix.
Hypothesis softmax_shape :
  forall M r c, has_shape r c M = true -> has_shape r c (softmax M) = true.

(** X24. The cells fit together.  Let [softmax] keep the shape of its
    argument.  For well-shaped term-frequency and TF-IDF features and NB
    weights, at least three classes and a non-empty test frame whose
    answer ids are training classes, the run of cells 5 to 11 returns:
    the three score matrices have one shape, the ensemble and the ranks
    are computed, Average Rank is an integer between 1 and the number of
    classes and Top-3 Percentage lies between 0 and 1. *)
Theorem notebook_returns_metrics (svc : LinearSVC) (clf : Classifier)
  (trainAnswerId : list Z) (testQ : frame)
  (x_wTrain x_wTest tfidfTrain tfidfTest NBWeights : matrix)
  (g : RandomState) (nTokens nFeatures : nat) :
  0 < nTokens -> 0 < nFeatures ->
  has_shape nTokens (length trainAnswerId) x_wTrain = true ->
  has_shape nTokens (len testQ) x_wTest = true ->
  has_shape nTokens (length (uniqueAnswerId trainAnswerId)) NBWeights = true ->
  has_shape nFeatures (length trainAnswerId) tfidfTrain = true ->
  has_shape nFeatures (len testQ) tfidfTest = true ->
  3 <= length (uniqueAnswerId trainAnswerId) ->
  0 < len testQ ->
  Forall (fun a => In a (uniqueAnswerId trainAnswerId)) (AnswerId testQ) ->
  exists ranked k t,
    notebook softmax svc clf trainAnswerId testQ x_wTrain x_wTest
             tfidfTrain tfidfTest NBWeights g
      = Ok (ranked, Some (inject_Z k), t) /\
    AnswerId ranked = AnswerId testQ /\
    (1 <= k <= Z.of_nat (length (uniqueAnswerId trainAnswerId)))%Z /\
    (0 <= t <= 1)%Q.
Proof.
  intros HT HF Htr Hte HW Htf Htft H3 Hpos Hans. unfold uniqueAnswerId in *.
  set (uniq := np_unique trainAnswerId) in *.
  destruct (Y_test_prob1_shape softmax x_wTest NBWeights _ _ _ HT Hte HW)
    as (S1 & HY1 & HS1).
  destruct (Y_test_prob2_ok softmax svc tfidfTrain tfidfTest trainAnswerId
              nFeatures (len testQ) HF Hpos Htf Htft H3)
    as (S2 & HY2 & HS2 & _).
  fold uniq in HS2.
  destruct (ovrClassifier_shape softmax clf trainAnswerId x_wTrain x_wTest
              NBWeights (Some 3) g nTokens (len testQ) HT Htr Hte HW)
    as (S3 & g' & HY3 & HS3); [fold uniq; lia | discriminate |].
  fold uniq in HS3.
  destruct (ensemble_entries (softmax S1) (softmax S2) (softmax S3)
              (len testQ) (length uniq))
    as (E & HE & HEs & _); try (now apply softmax_shape).
  apply has_shape_spec in HEs as [HEl HEr].
  destruct (rank_rows uniq E (AnswerId testQ) (np_unique_NoDup trainAnswerId)
              HEl HEr Hans)
    as (sorted & ranks & Hs & Hr & Hls & Hlr & Hall).
  pose proof (rank_rows_range uniq E (AnswerId testQ) sorted ranks
                HEl Hls Hlr Hall) as Hrange.
  assert (Hne : ranks <> []).
  { intros ->. unfold len in Hpos. simpl in Hlr. lia. }
  eexists _, (sum_ranks ranks / Z.of_nat (length ranks))%Z,
          (py_round (top3_fraction ranks) 3).
  split; [|split; [|split]].
  - unfold notebook, Y_test_prob3. rewrite HY1. simpl. rewrite HY2. simpl.
    rewrite HY3. simpl. rewrite HE. simpl.
    unfold evaluate, uniqueAnswerId. fold uniq.
    rewrite (rank_agree testQ E uniq sorted Hs Hls).
    unfold len in *. rewrite Hr. simpl.
    rewrite (top3_value ranks Hne). simpl.
    rewrite (AR_value ranks Hne). reflexivity.
  - reflexivity.
  - apply (AR_quotient_bounds ranks 1 (length uniq) Hne Hrange).
  - apply py_round_unit. now apply top3_fraction_unit.
Qed.

End NotebookRun.

(** ** The further properties at concrete inputs *)

Ltac forall_list tac :=
  repeat (apply Forall_cons; [tac|]); apply Forall_nil.

Lemma rank_row_count_mismatch_witness :
  rank example_testQ [[1; 2; 3]]%Q [10; 20; 30]%Z = Raise ValueError.
Proof.
  apply (rank_row_count_mismatch example_testQ [[1; 2; 3]]%Q [10; 20; 30]%Z).
  - forall_list ltac:(reflexivity).
  - discriminate.
Defined.

Lemma rank_too_many_scores_witness :
  rank example_testQ [[1; 2; 3]; [1; 2; 3; 4]]%Q [10; 20; 30]%Z
  = Raise IndexError.
Proof.
  apply rank_too_many_scores.
  exists [1; 2; 3; 4]%Q. split; [right; now left | simpl; lia].
Defined.

Lemma rank_returns_valid_frame_witness :
  Forall (fun a => In a [10; 20; 30]%Z) (AnswerId example_testQ).
Proof.
  exact (proj1 (proj2 (proj2
    (rank_returns_valid_frame example_testQ
       {| AnswerId := [20; 10]%Z;
          SortedAnswers := Some [[20; 30; 10]; [10; 20; 30]]%Z;
          Rank := Some [1; 1] |}
       example_scores [10; 20; 30]%Z eq_refl)))).
Defined.

Lemma rank_of_strict_best_witness :
  exists f' ranks,
    rank example_testQ example_scores [10; 20; 30]%Z = Ok f' /\
    Rank f' = Some ranks /\ nth_error ranks 0 = Some 1.
Proof.
  apply (rank_of_strict_best example_testQ example_scores [10; 20; 30]%Z
           0 [1 # 10; 7 # 10; 2 # 10]%Q 20%Z).
  - apply sorted_lt_NoDup. repeat constructor; reflexivity.
  - reflexivity.
  - forall_list ltac:(reflexivity).
  - forall_list ltac:(simpl; auto).
  - reflexivity.
  - reflexivity.
  - intros c [<-|[<-|[<-|[]]]] Hne;
      [reflexivity | contradiction | reflexivity].
Defined.

Lemma first_sorted_answer_is_best_witness :
  exists c0 rest,
    sorted_answers_row [10; 20; 30]%Z [1 # 10; 7 # 10; 2 # 10]%Q
      = Ok (c0 :: rest) /\ In c0 [10; 20; 30]%Z.
Proof.
  destruct (first_sorted_answer_is_best [10; 20; 30]%Z
              [1 # 10; 7 # 10; 2 # 10]%Q) as (c0 & rest & H1 & H2 & _).
  - apply sorted_lt_NoDup. repeat constructor; reflexivity.
  - reflexivity.
  - discriminate.
  - exists c0, rest. split; assumption.
Defined.

Lemma AR_between_bounds_witness :
  exists k : Z, AR [1; 2; 5] = Some (inject_Z k) /\ (1 <= k <= 5)%Z.
Proof.
  apply (AR_between_bounds [1; 2; 5] 1 5).
  - discriminate.
  - forall_list ltac:(lia).
Defined.

Lemma top3_unit_interval_witness :
  exists t : Q, top3 [1; 4; 2] = Ok t /\ (0 <= t <= 1)%Q.
Proof.
  destruct (top3_unit_interval [1; 4; 2]) as (t & H1 & H2 & _).
  - discriminate.
  - exists t. split; assumption.
Defined.

Lemma metrics_ignore_question_order_witness :
  AR [1; 4; 2] = AR [2; 1; 4] /\ top3 [1; 4; 2] = top3 [2; 1; 4].
Proof.
  apply metrics_ignore_question_order.
  apply (Permutation_cons_app [2] [4]). apply perm_swap.
Defined.

Lemma evaluate_empty_test_set_witness :
  evaluate {| AnswerId := []; SortedAnswers := None; Rank := None |}
           [] [10; 20; 30]%Z = Raise ZeroDivisionError.
Proof.
  exact (proj2 (evaluate_empty_test_set
                  {| AnswerId := []; SortedAnswers := None; Rank := None |}
                  [] [10; 20; 30]%Z eq_refl) eq_refl).
Defined.

Lemma evaluate_metric_ranges_witness :
  exists f' k t,
    evaluate example_testQ example_scores [10; 20; 30]%Z
      = Ok (f', Some (inject_Z k), t) /\
    AnswerId f' = AnswerId example_testQ /\
    (1 <= k <= 3)%Z /\ (0 <= t <= 1)%Q.
Proof.
  apply (evaluate_metric_ranges example_testQ example_scores [10; 20; 30]%Z).
  - apply sorted_lt_NoDup. repeat constructor; reflexivity.
  - reflexivity.
  - forall_list ltac:(reflexivity).
  - forall_list ltac:(simpl; auto).
  - unfold len. simpl. lia.
Defined.

Lemma ensemble_keeps_unanimous_order_witness :
  exists E,
    Y_test_prob_aggr [[1 # 2; 1 # 2]]%Q [[1 # 4; 3 # 4]]%Q [[0; 1]]%Q = Ok E /\
    (entry E 0 0 <= entry E 0 1)%Q.
Proof.
  destruct (ensemble_keeps_unanimous_order
              [[1 # 2; 1 # 2]]%Q [[1 # 4; 3 # 4]]%Q [[0; 1]]%Q 1 2 0 0 1)
    as (E & H1 & H2);
    try reflexivity; try lia; try (vm_compute; discriminate).
  exists E. split; assumption.
Defined.

Lemma ensemble_within_bounds_witness :
  exists E,
    Y_test_prob_aggr [[1 # 2; 1 # 2]]%Q [[1 # 4; 3 # 4]]%Q [[0; 1]]%Q = Ok E /\
    (0 <= entry E 0 1 <= 1)%Q.
Proof.
  destruct (ensemble_within_bounds
              [[1 # 2; 1 # 2]]%Q [[1 # 4; 3 # 4]]%Q [[0; 1]]%Q 1 2)
    as (E & H1 & H2); try reflexivity.
  - intros [|q] [|[|j]] Hq Hj; try lia;
      repeat split; vm_compute; discriminate.
  - exists E. split; [exact H1|]. apply H2; lia.
Defined.

Lemma tfidf_entries_witness :
  exists M,
    tfidf example_x_wTrain [2; 3]%Q = Ok M /\
    entry M 1 2 = (entry example_x_wTrain 1 2 * 3)%Q.
Proof.
  destruct (tfidf_entries example_x_wTrain [2; 3]%Q 2 3)
    as (M & H1 & _ & H2); try reflexivity; try lia.
  exists M. split; [exact H1|]. apply (H2 1 2); lia.
Defined.

Lemma tfidf_weight_count_mismatch_witness :
  tfidf example_x_wTrain [2; 3; 4]%Q = Raise ValueError.
Proof.
  apply (tfidf_weight_count_mismatch example_x_wTrain [2; 3; 4]%Q 2 3);
    try reflexivity; try lia; try discriminate.
Defined.

Lemma Y_test_prob1_vocabulary_mismatch_witness :
  Y_test_prob1 (fun M => M) example_x_wTest [[1; -1]]%Q = Raise ValueError.
Proof.
  apply (Y_test_prob1_vocabulary_mismatch (fun M => M) example_x_wTest
           [[1; -1]]%Q 2 1); try reflexivity; try lia; try discriminate.
Defined.

Lemma get_dummies_one_hot_witness :
  exists i,
    i < length (uniqueLabel [30; 10; 20; 10]%Z) /\
    nth_error (uniqueLabel [30; 10; 20; 10]%Z) i = Some 10%Z.
Proof.
  destruct (get_dummies_one_hot [30; 10; 20; 10]%Z 1 10%Z eq_refl)
    as (i & H1 & H2 & _).
  exists i. split; assumption.
Defined.


Lemma ovrClassifier_single_class_raises_witness :
  ovrClassifier (fun M => M) [5; 5]%Z [[1; 0]; [0; 1]]%Q example_x_wTest
                [[1]; [-1]]%Q nn_classifier (Some 3) (fun k => k)
  = Raise ValueError.
Proof.
  apply (ovrClassifier_single_class_raises (fun M => M) nn_classifier
           [5; 5]%Z 5%Z [[1; 0]; [0; 1]]%Q example_x_wTest [[1]; [-1]]%Q
           3 (fun k => k) 2 1); try reflexivity; lia.
Defined.

Lemma ovrClassifier_ratio_zero_raises_witness :
  ovrClassifier (fun M => M) [1; 2; 2]%Z example_x_wTrain example_x_wTest
                example_NBWeights nn_classifier (Some 0) (fun k => k)
  = Raise IndexError.
Proof.
  apply (ovrClassifier_ratio_zero_raises (fun M => M) nn_classifier
           [1; 2; 2]%Z example_x_wTrain example_x_wTest example_NBWeights
           (fun k => k) 2 1); try reflexivity; try lia; discriminate.
Defined.

Lemma ovrClassifier_returns_shape_witness :
  exists Y,
    [[1; 1]]%Q = (fun M : matrix => M) Y /\
    has_shape (ncols example_x_wTest) (length (uniqueLabel [1; 2; 2]%Z)) Y
    = true.
Proof.
  destruct (ovrClassifier_returns_shape (fun M => M) [1; 2; 2]%Z
              example_x_wTrain example_x_wTest example_NBWeights
              nn_classifier (Some 3) (fun _ => 0)
              (fun k => 0) [[1; 1]]%Q eq_refl) as (Y & H1 & H2 & _).
  exists Y. split; assumption.
Defined.

Lemma class_order_ignores_question_order_witness :
  uniqueAnswerId [1; 2; 2]%Z = uniqueAnswerId [2; 1; 2]%Z.
Proof.
  apply (class_order_ignores_question_order [1; 2; 2]%Z [2; 1; 2]%Z).
  apply perm_swap.
Defined.

Lemma notebook_returns_metrics_witness :
  exists ranked k t,
    notebook (fun M => M) centroid_svc nn_classifier example_trainAnswerId
             example_testQ1 example_x_wTrain3 example_x_wTest
             example_tfidfTrain example_tfidfTest example_NBWeights3
             (fun k => k)
      = Ok (ranked, Some (inject_Z k), t) /\
    (1 <= k <= 3)%Z /\ (0 <= t <= 1)%Q.
Proof.
  destruct (notebook_returns_metrics (fun M => M) (fun M r c H => H)
              centroid_svc nn_classifier example_trainAnswerId
              example_testQ1 example_x_wTrain3 example_x_wTest
              example_tfidfTrain example_tfidfTest example_NBWeights3
              (fun k => k) 2 2)
    as (ranked & k & t & H1 & _ & H2 & H3);
    try reflexivity; try lia; try (vm_compute; lia).
  - forall_list ltac:(simpl; auto).
  - exists ranked, k, t. split; [exact H1|]. split; [exact H2 | exact H3].
Defined.
